(** * City datasets for autocomplete: generator and sort-order validator

    A shallow embedding of [scripts/generate_city_datasets.py] and
    [scripts/validate_city_sorting.py].

    - A Python [str] is the list of its code points; the exceptions the two
      scripts can meet are carried by the [result] monad.
    - The Unicode character database ([unicodedata], [str.lower]) and the
      text-to-float conversion of [float] are library code: they enter through
      the interfaces [UnicodeData] and [FloatParser].  Every general theorem
      holds for any implementation of these interfaces that satisfies the
      stated laws; the instances [latin_ucd] and [ascii_float] run the code on
      concrete inputs.
    - Console output is not modelled. *)

From Stdlib Require Import ZArith NArith Lia.
From Stdlib Require Import Floats.SpecFloat.
From stdpp Require Import base option list sorting gmap strings.

Local Open Scope N_scope.

(** ** Python values *)

Module Py.

(** A [str]: the sequence of its code points. *)
Abbreviation str := (list N).

Inductive exn := ValueError | KeyError | TypeError | OverflowError.

#[export] Instance exn_eq_dec : EqDecision exn.
Proof. solve_decision. Defined.

Inductive result (A : Type) : Type :=
| Ok (a : A)
| Raise (e : exn).
Arguments Ok {A} a.
Arguments Raise {A} e.

#[export] Instance result_ret : MRet result := fun A a => Ok a.
#[export] Instance result_bind : MBind result := fun A B k m =>
  match m with
  | Ok a => k a
  | Raise e => Raise e
  end.

(** [for x in l: st = body st x], where the body may raise. *)
Fixpoint for_each {St A : Type} (body : St -> A -> result St) (l : list A)
    (st : St) : result St :=
  match l with
  | [] => Ok st
  | x :: l' => st' ← body st x; for_each body l' st'
  end.

(** [for i, x in enumerate(l)], counting from [i]. *)
Fixpoint for_enumerate {St A : Type} (body : St -> nat -> A -> result St)
    (i : nat) (l : list A) (st : St) : result St :=
  match l with
  | [] => Ok st
  | x :: l' => st' ← body st i x; for_enumerate body (S i) l' st'
  end.

(** Decoding of a UTF-8 literal of this file into a [str]. *)
Fixpoint utf8_decode (bytes : list N) (pending : nat) (acc : N) : str :=
  match bytes with
  | [] => []
  | b :: bytes' =>
      match pending with
      | O =>
          if b <? 0x80 then b :: utf8_decode bytes' 0 0
          else if b <? 0xE0 then utf8_decode bytes' 1 (N.land b 0x1F)
          else if b <? 0xF0 then utf8_decode bytes' 2 (N.land b 0x0F)
          else utf8_decode bytes' 3 (N.land b 0x07)
      | S n =>
          let acc' := acc * 64 + N.land b 0x3F in
          match n with
          | O => acc' :: utf8_decode bytes' 0 0
          | _ => utf8_decode bytes' n acc'
          end
      end
  end.

Definition lit (s : string) : str :=
  utf8_decode (map Ascii.N_of_ascii (String.list_ascii_of_string s)) 0 0.

(** The code point of a one-character literal. *)
Definition ch (s : string) : N := hd 0 (lit s).

(** [a < b] on [str]: lexicographic on code points. *)
Fixpoint str_lt (a b : str) : bool :=
  match a, b with
  | _, [] => false
  | [], _ :: _ => true
  | x :: a', y :: b' =>
      if x <? y then true else if y <? x then false else str_lt a' b'
  end.

(** [a <= b] on [str]. *)
Definition str_le (a b : str) : bool := negb (str_lt b a).

(** [ord(s)]: defined on one-character strings only. *)
Definition ord (s : str) : result N :=
  match s with
  | [c] => Ok c
  | _ => Raise TypeError
  end.

(** [''.join(parts)]. *)
Definition join (parts : list str) : str := concat parts.

(** The values that occur in a CSV row and in a city object. *)
Inductive value :=
| PNone
| PStr (s : str)
| PInt (z : Z)
| PFloat (f : spec_float).

(** Truth value of an object ([not v] is its negation). *)
Definition truthy (v : value) : bool :=
  match v with
  | PNone => false
  | PStr s => negb (bool_decide (s = []))
  | PInt z => negb (z =? 0)%Z
  | PFloat (S754_zero _) => false
  | PFloat _ => true
  end.

(** Insertion of [x] in front of the first element that is not smaller:
    the step of a stable sort. *)
Fixpoint insert_by_key {A : Type} (x : str * A) (l : list (str * A))
  : list (str * A) :=
  match l with
  | [] => [x]
  | y :: l' =>
      if str_lt y.1 x.1 then y :: insert_by_key x l' else x :: y :: l'
  end.

Definition stable_sort {A : Type} (l : list (str * A)) : list (str * A) :=
  foldr insert_by_key [] l.

(** [l.sort(key=key)]: the keys are computed first, once per element and in
    list order (an exception of [key] leaves the sort); the elements are
    then ordered by [<] on the keys, equal keys keeping their order. *)
Definition sort_by_key {A : Type} (key : A -> result str) (l : list A)
  : result (list A) :=
  keyed ← mapM (fun x => k ← key x; mret (k, x)) l;
  mret ((stable_sort keyed).*2).

(** [d[k]] on a dict. *)
Definition getitem (d : gmap string value) (k : string) : result value :=
  match d !! k with
  | Some v => Ok v
  | None => Raise KeyError
  end.

(** [try: body / except caught: handler]. *)
Definition try_except {A : Type} (body : result A) (caught : list exn)
    (handler : result A) : result A :=
  match body with
  | Ok a => Ok a
  | Raise e => if bool_decide (e ∈ caught) then handler else Raise e
  end.

(** The doubles: binary64. *)
Definition prec : Z := 53.
Definition emax : Z := 1024.

(** [int(f)] for a float: truncation towards zero. *)
Definition int_of_float (f : spec_float) : result Z :=
  match f with
  | S754_zero _ => Ok 0%Z
  | S754_infinity _ => Raise OverflowError
  | S754_nan => Raise ValueError
  | S754_finite s m e =>
      let a := Z.shiftl (Zpos m) e in
      Ok (if s then (- a)%Z else a)
  end.

(** [float(n)] for an int: the nearest double, or OverflowError. *)
Definition float_of_int (z : Z) : result spec_float :=
  match binary_normalize prec emax z 0 false with
  | S754_infinity _ => Raise OverflowError
  | f => Ok f
  end.

Definition is_finite (f : spec_float) : bool :=
  match f with
  | S754_zero _ | S754_finite _ _ _ => true
  | S754_infinity _ | S754_nan => false
  end.

End Py.
Import Py.

(** ** Text to float *)

(** [float(s)] for a [str]. *)
Class FloatParser := {
  float_of_str : str -> result spec_float
}.

(** [float] reports a text that is no float literal by ValueError, and by no
    other exception. *)
Record FloatLaws (F : FloatParser) : Prop := {
  float_of_str_exn : forall s e, float_of_str s = Raise e -> e = ValueError
}.

(** The builtin [float]. *)
Definition py_float `{F : FloatParser} (v : value) : result spec_float :=
  match v with
  | PNone => Raise TypeError
  | PStr s => float_of_str s
  | PInt z => float_of_int z
  | PFloat f => Ok f
  end.

(** [float] on ASCII text, after CPython: surrounding white space is dropped,
    an underscore may stand between two digits, the literal is a decimal
    number with an optional exponent, or [inf], [infinity] or [nan] in any
    case, with an optional sign; the decimal value is rounded to the nearest
    double, ties to even, and a value too large becomes an infinity.  (CPython
    also takes the decimal digits and the spaces of other scripts; a text with
    such a character is no literal here.) *)
Module AsciiFloat.

Definition is_space (c : N) : bool :=
  ((9 <=? c) && (c <=? 13)) || ((28 <=? c) && (c <=? 32)).

Definition is_digit (c : N) : bool := (ch "0" <=? c) && (c <=? ch "9").

Fixpoint lstrip (s : str) : str :=
  match s with
  | c :: s' => if is_space c then lstrip s' else s
  | [] => []
  end.

Definition strip (s : str) : str := reverse (lstrip (reverse (lstrip s))).

(** Removal of the underscores; [prev] is the character before [s]. *)
Fixpoint underscores (prev : N) (s : str) : option str :=
  match s with
  | [] => if prev =? ch "_" then None else Some []
  | c :: s' =>
      if c =? ch "_" then
        if is_digit prev then underscores c s' else None
      else if (prev =? ch "_") && negb (is_digit c) then None
      else (c ::.) <$> underscores c s'
  end.

(** The longest prefix of digits, and the rest. *)
Fixpoint span_digits (s : str) : str * str :=
  match s with
  | c :: s' =>
      if is_digit c then let '(ds, rest) := span_digits s' in (c :: ds, rest)
      else ([], s)
  | [] => ([], [])
  end.

Definition digits_value (ds : str) : Z :=
  foldl (fun acc d => (acc * 10 + (Z.of_N d - 48))%Z) 0%Z ds.

Definition split_sign (s : str) : bool * str :=
  match s with
  | c :: s' =>
      if c =? ch "-" then (true, s')
      else if c =? ch "+" then (false, s')
      else (false, s)
  | [] => (false, [])
  end.

(** The double nearest to [digits * 10 ^ exp10], with sign [neg]. *)
Definition round_decimal (neg : bool) (digits exp10 : Z) : spec_float :=
  if (digits =? 0)%Z then S754_zero neg
  else if (0 <=? exp10)%Z then
    let f := binary_normalize prec emax (digits * 10 ^ exp10) 0 false in
    if neg then SFopp f else f
  else
    let den := (10 ^ (- exp10))%Z in
    let s := Z.max 0 (54 + Zdigits2 den - Zdigits2 digits) in
    let num := (digits * 2 ^ s)%Z in
    let q := (num / den)%Z in
    let r := (num mod den)%Z in
    let loc := if (r =? 0)%Z then loc_Exact else loc_Inexact (2 * r ?= den)%Z in
    binary_round_aux prec emax neg q (- s) loc.

(** An exponent part: [e] or [E], an optional sign, digits. *)
Definition parse_exponent (s : str) : option Z :=
  match s with
  | [] => Some 0%Z
  | c :: s' =>
      if (c =? ch "e") || (c =? ch "E") then
        let '(neg, s'') := split_sign s' in
        let '(ds, rest) := span_digits s'' in
        match ds, rest with
        | _ :: _, [] => Some (if neg then (- digits_value ds)%Z else digits_value ds)
        | _, _ => None
        end
      else None
  end.

Definition parse_decimal (s : str) : option spec_float :=
  let '(neg, s1) := split_sign s in
  let '(int_part, s2) := span_digits s1 in
  let '(frac_part, s3) :=
    match s2 with
    | c :: s2' => if c =? ch "." then span_digits s2' else ([], s2)
    | [] => ([], [])
    end in
  match int_part ++ frac_part with
  | [] => None
  | mantissa =>
      e ← parse_exponent s3;
      Some (round_decimal neg (digits_value mantissa)
              (e - Z.of_nat (length frac_part)))
  end.

Definition ascii_lower (c : N) : N :=
  if (ch "A" <=? c) && (c <=? ch "Z") then c + 32 else c.

Definition parse_inf_or_nan (s : str) : option spec_float :=
  let '(neg, s') := split_sign s in
  let word := map ascii_lower s' in
  if bool_decide (word = lit "inf") || bool_decide (word = lit "infinity")
  then Some (S754_infinity neg)
  else if bool_decide (word = lit "nan") then Some S754_nan
  else None.

Definition parse (s : str) : result spec_float :=
  match underscores 0 (strip s) with
  | None => Raise ValueError
  | Some s' =>
      match parse_decimal s' with
      | Some f => Ok f
      | None =>
          match parse_inf_or_nan s' with
          | Some f => Ok f
          | None => Raise ValueError
          end
      end
  end.

Definition ascii_float : FloatParser := {| float_of_str := parse |}.

End AsciiFloat.

(** ** The Unicode character database *)

(** What the scripts use of [unicodedata] and of [str.lower]. *)
Class UnicodeData := {
(** full canonical decomposition of one code point *)
decomposition : N -> str;
(** [unicodedata.combining]: the canonical combining class *)
combining : N -> N;
(** [unicodedata.category(c) == 'Mn'] *)
category_Mn : N -> bool;
(** [c.lower()] for the one-character string [c] *)
lower : N -> str
}.

Module Unicode.
Section NFD.
Context `{U : UnicodeData}.

(** A mark joins the pending run of marks behind every mark whose class is
    not greater than its own. *)
Fixpoint insert_mark (c : N) (run : str) : str :=
  match run with
  | [] => [c]
  | d :: run' =>
      if combining c <? combining d then c :: d :: run'
      else d :: insert_mark c run'
  end.

(** Canonical ordering: every maximal run of code points of non-zero
    combining class is sorted by class, equal classes keeping their order. *)
Fixpoint canonical_order (s : str) (run : str) : str :=
  match s with
  | [] => run
  | c :: s' =>
      if combining c =? 0 then run ++ c :: canonical_order s' []
      else canonical_order s' (insert_mark c run)
  end.

(** [unicodedata.normalize('NFD', s)]. *)
Definition normalize_NFD (s : str) : str :=
  canonical_order (flat_map decomposition s) [].

End NFD.
End Unicode.

(** The laws of the database that the proofs rely on.  They hold in every
    version of the Unicode standard: ASCII is fixed by its stability policy,
    U+0130 is the only code point whose lowercase form has more than one code
    point, and U+0130 has a canonical decomposition, so that it is never part
    of a decomposed text. *)
Record UnicodeLaws (U : UnicodeData) : Prop := {
  ascii_decomposition : forall c, c < 128 -> decomposition c = [c];
  ascii_combining : forall c, c < 128 -> combining c = 0;
  ascii_category : forall c, c < 128 -> category_Mn c = false;
  ascii_lower : forall c, c < 128 ->
    lower c = [if (65 <=? c) && (c <=? 90) then c + 32 else c];
  lower_one : forall c, c <> 0x130 -> length (lower c) = 1%nat;
  decomposition_closed : forall c, 0x130 ∉ decomposition c
}.

(** An excerpt of the database (Unicode 14.0.0) for the blocks Basic Latin,
    Latin-1 Supplement, Latin Extended-A (U+0000..U+017F), Combining
    Diacritical Marks (U+0300..U+036F) and Latin Extended Additional
    (U+1E00..U+1EFF).  A code point outside these blocks is given no
    decomposition, class 0, a category other than Mn and itself as lowercase
    form, which is not what the full database says of all of them. *)
Module LatinExcerpt.

Fixpoint assoc {V : Type} (c : N) (table : list (N * V)) : option V :=
  match table with
  | [] => None
  | (k, v) :: table' => if k =? c then Some v else assoc c table'
  end.

Definition decomposition_table : list (N * str) := [
  (0x00C0, [0x0041; 0x0300]); (0x00C1, [0x0041; 0x0301]); (0x00C2, [0x0041; 0x0302]);
  (0x00C3, [0x0041; 0x0303]); (0x00C4, [0x0041; 0x0308]); (0x00C5, [0x0041; 0x030A]);
  (0x00C7, [0x0043; 0x0327]); (0x00C8, [0x0045; 0x0300]); (0x00C9, [0x0045; 0x0301]);
  (0x00CA, [0x0045; 0x0302]); (0x00CB, [0x0045; 0x0308]); (0x00CC, [0x0049; 0x0300]);
  (0x00CD, [0x0049; 0x0301]); (0x00CE, [0x0049; 0x0302]); (0x00CF, [0x0049; 0x0308]);
  (0x00D1, [0x004E; 0x0303]); (0x00D2, [0x004F; 0x0300]); (0x00D3, [0x004F; 0x0301]);
  (0x00D4, [0x004F; 0x0302]); (0x00D5, [0x004F; 0x0303]); (0x00D6, [0x004F; 0x0308]);
  (0x00D9, [0x0055; 0x0300]); (0x00DA, [0x0055; 0x0301]); (0x00DB, [0x0055; 0x0302]);
  (0x00DC, [0x0055; 0x0308]); (0x00DD, [0x0059; 0x0301]); (0x00E0, [0x0061; 0x0300]);
  (0x00E1, [0x0061; 0x0301]); (0x00E2, [0x0061; 0x0302]); (0x00E3, [0x0061; 0x0303]);
  (0x00E4, [0x0061; 0x0308]); (0x00E5, [0x0061; 0x030A]); (0x00E7, [0x0063; 0x0327]);
  (0x00E8, [0x0065; 0x0300]); (0x00E9, [0x0065; 0x0301]); (0x00EA, [0x0065; 0x0302]);
  (0x00EB, [0x0065; 0x0308]); (0x00EC, [0x0069; 0x0300]); (0x00ED, [0x0069; 0x0301]);
  (0x00EE, [0x0069; 0x0302]); (0x00EF, [0x0069; 0x0308]); (0x00F1, [0x006E; 0x0303]);
  (0x00F2, [0x006F; 0x0300]); (0x00F3, [0x006F; 0x0301]); (0x00F4, [0x006F; 0x0302]);
  (0x00F5, [0x006F; 0x0303]); (0x00F6, [0x006F; 0x0308]); (0x00F9, [0x0075; 0x0300]);
  (0x00FA, [0x0075; 0x0301]); (0x00FB, [0x0075; 0x0302]); (0x00FC, [0x0075; 0x0308]);
  (0x00FD, [0x0079; 0x0301]); (0x00FF, [0x0079; 0x0308]); (0x0100, [0x0041; 0x0304]);
  (0x0101, [0x0061; 0x0304]); (0x0102, [0x0041; 0x0306]); (0x0103, [0x0061; 0x0306]);
  (0x0104, [0x0041; 0x0328]); (0x0105, [0x0061; 0x0328]); (0x0106, [0x0043; 0x0301]);
  (0x0107, [0x0063; 0x0301]); (0x0108, [0x0043; 0x0302]); (0x0109, [0x0063; 0x0302]);
  (0x010A, [0x0043; 0x0307]); (0x010B, [0x0063; 0x0307]); (0x010C, [0x0043; 0x030C]);
  (0x010D, [0x0063; 0x030C]); (0x010E, [0x0044; 0x030C]); (0x010F, [0x0064; 0x030C]);
  (0x0112, [0x0045; 0x0304]); (0x0113, [0x0065; 0x0304]); (0x0114, [0x0045; 0x0306]);
  (0x0115, [0x0065; 0x0306]); (0x0116, [0x0045; 0x0307]); (0x0117, [0x0065; 0x0307]);
  (0x0118, [0x0045; 0x0328]); (0x0119, [0x0065; 0x0328]); (0x011A, [0x0045; 0x030C]);
  (0x011B, [0x0065; 0x030C]); (0x011C, [0x0047; 0x0302]); (0x011D, [0x0067; 0x0302]);
  (0x011E, [0x0047; 0x0306]); (0x011F, [0x0067; 0x0306]); (0x0120, [0x0047; 0x0307]);
  (0x0121, [0x0067; 0x0307]); (0x0122, [0x0047; 0x0327]); (0x0123, [0x0067; 0x0327]);
  (0x0124, [0x0048; 0x0302]); (0x0125, [0x0068; 0x0302]); (0x0128, [0x0049; 0x0303]);
  (0x0129, [0x0069; 0x0303]); (0x012A, [0x0049; 0x0304]); (0x012B, [0x0069; 0x0304]);
  (0x012C, [0x0049; 0x0306]); (0x012D, [0x0069; 0x0306]); (0x012E, [0x0049; 0x0328]);
  (0x012F, [0x0069; 0x0328]); (0x0130, [0x0049; 0x0307]); (0x0134, [0x004A; 0x0302]);
  (0x0135, [0x006A; 0x0302]); (0x0136, [0x004B; 0x0327]); (0x0137, [0x006B; 0x0327]);
  (0x0139, [0x004C; 0x0301]); (0x013A, [0x006C; 0x0301]); (0x013B, [0x004C; 0x0327]);
  (0x013C, [0x006C; 0x0327]); (0x013D, [0x004C; 0x030C]); (0x013E, [0x006C; 0x030C]);
  (0x0143, [0x004E; 0x0301]); (0x0144, [0x006E; 0x0301]); (0x0145, [0x004E; 0x0327]);
  (0x0146, [0x006E; 0x0327]); (0x0147, [0x004E; 0x030C]); (0x0148, [0x006E; 0x030C]);
  (0x014C, [0x004F; 0x0304]); (0x014D, [0x006F; 0x0304]); (0x014E, [0x004F; 0x0306]);
  (0x014F, [0x006F; 0x0306]); (0x0150, [0x004F; 0x030B]); (0x0151, [0x006F; 0x030B]);
  (0x0154, [0x0052; 0x0301]); (0x0155, [0x0072; 0x0301]); (0x0156, [0x0052; 0x0327]);
  (0x0157, [0x0072; 0x0327]); (0x0158, [0x0052; 0x030C]); (0x0159, [0x0072; 0x030C]);
  (0x015A, [0x0053; 0x0301]); (0x015B, [0x0073; 0x0301]); (0x015C, [0x0053; 0x0302]);
  (0x015D, [0x0073; 0x0302]); (0x015E, [0x0053; 0x0327]); (0x015F, [0x0073; 0x0327]);
  (0x0160, [0x0053; 0x030C]); (0x0161, [0x0073; 0x030C]); (0x0162, [0x0054; 0x0327]);
  (0x0163, [0x0074; 0x0327]); (0x0164, [0x0054; 0x030C]); (0x0165, [0x0074; 0x030C]);
  (0x0168, [0x0055; 0x0303]); (0x0169, [0x0075; 0x0303]); (0x016A, [0x0055; 0x0304]);
  (0x016B, [0x0075; 0x0304]); (0x016C, [0x0055; 0x0306]); (0x016D, [0x0075; 0x0306]);
  (0x016E, [0x0055; 0x030A]); (0x016F, [0x0075; 0x030A]); (0x0170, [0x0055; 0x030B]);
  (0x0171, [0x0075; 0x030B]); (0x0172, [0x0055; 0x0328]); (0x0173, [0x0075; 0x0328]);
  (0x0174, [0x0057; 0x0302]); (0x0175, [0x0077; 0x0302]); (0x0176, [0x0059; 0x0302]);
  (0x0177, [0x0079; 0x0302]); (0x0178, [0x0059; 0x0308]); (0x0179, [0x005A; 0x0301]);
  (0x017A, [0x007A; 0x0301]); (0x017B, [0x005A; 0x0307]); (0x017C, [0x007A; 0x0307]);
  (0x017D, [0x005A; 0x030C]); (0x017E, [0x007A; 0x030C]); (0x0340, [0x0300]);
  (0x0341, [0x0301]); (0x0343, [0x0313]); (0x0344, [0x0308; 0x0301]);
  (0x1E00, [0x0041; 0x0325]); (0x1E01, [0x0061; 0x0325]); (0x1E02, [0x0042; 0x0307]);
  (0x1E03, [0x0062; 0x0307]); (0x1E04, [0x0042; 0x0323]); (0x1E05, [0x0062; 0x0323]);
  (0x1E06, [0x0042; 0x0331]); (0x1E07, [0x0062; 0x0331]);
  (0x1E08, [0x0043; 0x0327; 0x0301]); (0x1E09, [0x0063; 0x0327; 0x0301]);
  (0x1E0A, [0x0044; 0x0307]); (0x1E0B, [0x0064; 0x0307]); (0x1E0C, [0x0044; 0x0323]);
  (0x1E0D, [0x0064; 0x0323]); (0x1E0E, [0x0044; 0x0331]); (0x1E0F, [0x0064; 0x0331]);
  (0x1E10, [0x0044; 0x0327]); (0x1E11, [0x0064; 0x0327]); (0x1E12, [0x0044; 0x032D]);
  (0x1E13, [0x0064; 0x032D]); (0x1E14, [0x0045; 0x0304; 0x0300]);
  (0x1E15, [0x0065; 0x0304; 0x0300]); (0x1E16, [0x0045; 0x0304; 0x0301]);
  (0x1E17, [0x0065; 0x0304; 0x0301]); (0x1E18, [0x0045; 0x032D]);
  (0x1E19, [0x0065; 0x032D]); (0x1E1A, [0x0045; 0x0330]); (0x1E1B, [0x0065; 0x0330]);
  (0x1E1C, [0x0045; 0x0327; 0x0306]); (0x1E1D, [0x0065; 0x0327; 0x0306]);
  (0x1E1E, [0x0046; 0x0307]); (0x1E1F, [0x0066; 0x0307]); (0x1E20, [0x0047; 0x0304]);
  (0x1E21, [0x0067; 0x0304]); (0x1E22, [0x0048; 0x0307]); (0x1E23, [0x0068; 0x0307]);
  (0x1E24, [0x0048; 0x0323]); (0x1E25, [0x0068; 0x0323]); (0x1E26, [0x0048; 0x0308]);
  (0x1E27, [0x0068; 0x0308]); (0x1E28, [0x0048; 0x0327]); (0x1E29, [0x0068; 0x0327]);
  (0x1E2A, [0x0048; 0x032E]); (0x1E2B, [0x0068; 0x032E]); (0x1E2C, [0x0049; 0x0330]);
  (0x1E2D, [0x0069; 0x0330]); (0x1E2E, [0x0049; 0x0308; 0x0301]);
  (0x1E2F, [0x0069; 0x0308; 0x0301]); (0x1E30, [0x004B; 0x0301]);
  (0x1E31, [0x006B; 0x0301]); (0x1E32, [0x004B; 0x0323]); (0x1E33, [0x006B; 0x0323]);
  (0x1E34, [0x004B; 0x0331]); (0x1E35, [0x006B; 0x0331]); (0x1E36, [0x004C; 0x0323]);
  (0x1E37, [0x006C; 0x0323]); (0x1E38, [0x004C; 0x0323; 0x0304]);
  (0x1E39, [0x006C; 0x0323; 0x0304]); (0x1E3A, [0x004C; 0x0331]);
  (0x1E3B, [0x006C; 0x0331]); (0x1E3C, [0x004C; 0x032D]); (0x1E3D, [0x006C; 0x032D]);
  (0x1E3E, [0x004D; 0x0301]); (0x1E3F, [0x006D; 0x0301]); (0x1E40, [0x004D; 0x0307]);
  (0x1E41, [0x006D; 0x0307]); (0x1E42, [0x004D; 0x0323]); (0x1E43, [0x006D; 0x0323]);
  (0x1E44, [0x004E; 0x0307]); (0x1E45, [0x006E; 0x0307]); (0x1E46, [0x004E; 0x0323]);
  (0x1E47, [0x006E; 0x0323]); (0x1E48, [0x004E; 0x0331]); (0x1E49, [0x006E; 0x0331]);
  (0x1E4A, [0x004E; 0x032D]); (0x1E4B, [0x006E; 0x032D]);
  (0x1E4C, [0x004F; 0x0303; 0x0301]); (0x1E4D, [0x006F; 0x0303; 0x0301]);
  (0x1E4E, [0x004F; 0x0303; 0x0308]); (0x1E4F, [0x006F; 0x0303; 0x0308]);
  (0x1E50, [0x004F; 0x0304; 0x0300]); (0x1E51, [0x006F; 0x0304; 0x0300]);
  (0x1E52, [0x004F; 0x0304; 0x0301]); (0x1E53, [0x006F; 0x0304; 0x0301]);
  (0x1E54, [0x0050; 0x0301]); (0x1E55, [0x0070; 0x0301]); (0x1E56, [0x0050; 0x0307]);
  (0x1E57, [0x0070; 0x0307]); (0x1E58, [0x0052; 0x0307]); (0x1E59, [0x0072; 0x0307]);
  (0x1E5A, [0x0052; 0x0323]); (0x1E5B, [0x0072; 0x0323]);
  (0x1E5C, [0x0052; 0x0323; 0x0304]); (0x1E5D, [0x0072; 0x0323; 0x0304]);
  (0x1E5E, [0x0052; 0x0331]); (0x1E5F, [0x0072; 0x0331]); (0x1E60, [0x0053; 0x0307]);
  (0x1E61, [0x0073; 0x0307]); (0x1E62, [0x0053; 0x0323]); (0x1E63, [0x0073; 0x0323]);
  (0x1E64, [0x0053; 0x0301; 0x0307]); (0x1E65, [0x0073; 0x0301; 0x0307]);
  (0x1E66, [0x0053; 0x030C; 0x0307]); (0x1E67, [0x0073; 0x030C; 0x0307]);
  (0x1E68, [0x0053; 0x0323; 0x0307]); (0x1E69, [0x0073; 0x0323; 0x0307]);
  (0x1E6A, [0x0054; 0x0307]); (0x1E6B, [0x0074; 0x0307]); (0x1E6C, [0x0054; 0x0323]);
  (0x1E6D, [0x0074; 0x0323]); (0x1E6E, [0x0054; 0x0331]); (0x1E6F, [0x0074; 0x0331]);
  (0x1E70, [0x0054; 0x032D]); (0x1E71, [0x0074; 0x032D]); (0x1E72, [0x0055; 0x0324]);
  (0x1E73, [0x0075; 0x0324]); (0x1E74, [0x0055; 0x0330]); (0x1E75, [0x0075; 0x0330]);
  (0x1E76, [0x0055; 0x032D]); (0x1E77, [0x0075; 0x032D]);
  (0x1E78, [0x0055; 0x0303; 0x0301]); (0x1E79, [0x0075; 0x0303; 0x0301]);
  (0x1E7A, [0x0055; 0x0304; 0x0308]); (0x1E7B, [0x0075; 0x0304; 0x0308]);
  (0x1E7C, [0x0056; 0x0303]); (0x1E7D, [0x0076; 0x0303]); (0x1E7E, [0x0056; 0x0323]);
  (0x1E7F, [0x0076; 0x0323]); (0x1E80, [0x0057; 0x0300]); (0x1E81, [0x0077; 0x0300]);
  (0x1E82, [0x0057; 0x0301]); (0x1E83, [0x0077; 0x0301]); (0x1E84, [0x0057; 0x0308]);
  (0x1E85, [0x0077; 0x0308]); (0x1E86, [0x0057; 0x0307]); (0x1E87, [0x0077; 0x0307]);
  (0x1E88, [0x0057; 0x0323]); (0x1E89, [0x0077; 0x0323]); (0x1E8A, [0x0058; 0x0307]);
  (0x1E8B, [0x0078; 0x0307]); (0x1E8C, [0x0058; 0x0308]); (0x1E8D, [0x0078; 0x0308]);
  (0x1E8E, [0x0059; 0x0307]); (0x1E8F, [0x0079; 0x0307]); (0x1E90, [0x005A; 0x0302]);
  (0x1E91, [0x007A; 0x0302]); (0x1E92, [0x005A; 0x0323]); (0x1E93, [0x007A; 0x0323]);
  (0x1E94, [0x005A; 0x0331]); (0x1E95, [0x007A; 0x0331]); (0x1E96, [0x0068; 0x0331]);
  (0x1E97, [0x0074; 0x0308]); (0x1E98, [0x0077; 0x030A]); (0x1E99, [0x0079; 0x030A]);
  (0x1E9B, [0x017F; 0x0307]); (0x1EA0, [0x0041; 0x0323]); (0x1EA1, [0x0061; 0x0323]);
  (0x1EA2, [0x0041; 0x0309]); (0x1EA3, [0x0061; 0x0309]);
  (0x1EA4, [0x0041; 0x0302; 0x0301]); (0x1EA5, [0x0061; 0x0302; 0x0301]);
  (0x1EA6, [0x0041; 0x0302; 0x0300]); (0x1EA7, [0x0061; 0x0302; 0x0300]);
  (0x1EA8, [0x0041; 0x0302; 0x0309]); (0x1EA9, [0x0061; 0x0302; 0x0309]);
  (0x1EAA, [0x0041; 0x0302; 0x0303]); (0x1EAB, [0x0061; 0x0302; 0x0303]);
  (0x1EAC, [0x0041; 0x0323; 0x0302]); (0x1EAD, [0x0061; 0x0323; 0x0302]);
  (0x1EAE, [0x0041; 0x0306; 0x0301]); (0x1EAF, [0x0061; 0x0306; 0x0301]);
  (0x1EB0, [0x0041; 0x0306; 0x0300]); (0x1EB1, [0x0061; 0x0306; 0x0300]);
  (0x1EB2, [0x0041; 0x0306; 0x0309]); (0x1EB3, [0x0061; 0x0306; 0x0309]);
  (0x1EB4, [0x0041; 0x0306; 0x0303]); (0x1EB5, [0x0061; 0x0306; 0x0303]);
  (0x1EB6, [0x0041; 0x0323; 0x0306]); (0x1EB7, [0x0061; 0x0323; 0x0306]);
  (0x1EB8, [0x0045; 0x0323]); (0x1EB9, [0x0065; 0x0323]); (0x1EBA, [0x0045; 0x0309]);
  (0x1EBB, [0x0065; 0x0309]); (0x1EBC, [0x0045; 0x0303]); (0x1EBD, [0x0065; 0x0303]);
  (0x1EBE, [0x0045; 0x0302; 0x0301]); (0x1EBF, [0x0065; 0x0302; 0x0301]);
  (0x1EC0, [0x0045; 0x0302; 0x0300]); (0x1EC1, [0x0065; 0x0302; 0x0300]);
  (0x1EC2, [0x0045; 0x0302; 0x0309]); (0x1EC3, [0x0065; 0x0302; 0x0309]);
  (0x1EC4, [0x0045; 0x0302; 0x0303]); (0x1EC5, [0x0065; 0x0302; 0x0303]);
  (0x1EC6, [0x0045; 0x0323; 0x0302]); (0x1EC7, [0x0065; 0x0323; 0x0302]);
  (0x1EC8, [0x0049; 0x0309]); (0x1EC9, [0x0069; 0x0309]); (0x1ECA, [0x0049; 0x0323]);
  (0x1ECB, [0x0069; 0x0323]); (0x1ECC, [0x004F; 0x0323]); (0x1ECD, [0x006F; 0x0323]);
  (0x1ECE, [0x004F; 0x0309]); (0x1ECF, [0x006F; 0x0309]);
  (0x1ED0, [0x004F; 0x0302; 0x0301]); (0x1ED1, [0x006F; 0x0302; 0x0301]);
  (0x1ED2, [0x004F; 0x0302; 0x0300]); (0x1ED3, [0x006F; 0x0302; 0x0300]);
  (0x1ED4, [0x004F; 0x0302; 0x0309]); (0x1ED5, [0x006F; 0x0302; 0x0309]);
  (0x1ED6, [0x004F; 0x0302; 0x0303]); (0x1ED7, [0x006F; 0x0302; 0x0303]);
  (0x1ED8, [0x004F; 0x0323; 0x0302]); (0x1ED9, [0x006F; 0x0323; 0x0302]);
  (0x1EDA, [0x004F; 0x031B; 0x0301]); (0x1EDB, [0x006F; 0x031B; 0x0301]);
  (0x1EDC, [0x004F; 0x031B; 0x0300]); (0x1EDD, [0x006F; 0x031B; 0x0300]);
  (0x1EDE, [0x004F; 0x031B; 0x0309]); (0x1EDF, [0x006F; 0x031B; 0x0309]);
  (0x1EE0, [0x004F; 0x031B; 0x0303]); (0x1EE1, [0x006F; 0x031B; 0x0303]);
  (0x1EE2, [0x004F; 0x031B; 0x0323]); (0x1EE3, [0x006F; 0x031B; 0x0323]);
  (0x1EE4, [0x0055; 0x0323]); (0x1EE5, [0x0075; 0x0323]); (0x1EE6, [0x0055; 0x0309]);
  (0x1EE7, [0x0075; 0x0309]); (0x1EE8, [0x0055; 0x031B; 0x0301]);
  (0x1EE9, [0x0075; 0x031B; 0x0301]); (0x1EEA, [0x0055; 0x031B; 0x0300]);
  (0x1EEB, [0x0075; 0x031B; 0x0300]); (0x1EEC, [0x0055; 0x031B; 0x0309]);
  (0x1EED, [0x0075; 0x031B; 0x0309]); (0x1EEE, [0x0055; 0x031B; 0x0303]);
  (0x1EEF, [0x0075; 0x031B; 0x0303]); (0x1EF0, [0x0055; 0x031B; 0x0323]);
  (0x1EF1, [0x0075; 0x031B; 0x0323]); (0x1EF2, [0x0059; 0x0300]);
  (0x1EF3, [0x0079; 0x0300]); (0x1EF4, [0x0059; 0x0323]); (0x1EF5, [0x0079; 0x0323]);
  (0x1EF6, [0x0059; 0x0309]); (0x1EF7, [0x0079; 0x0309]); (0x1EF8, [0x0059; 0x0303]);
  (0x1EF9, [0x0079; 0x0303])
].

Definition lower_table : list (N * str) := [
  (0x00C0, [0x00E0]); (0x00C1, [0x00E1]); (0x00C2, [0x00E2]); (0x00C3, [0x00E3]);
  (0x00C4, [0x00E4]); (0x00C5, [0x00E5]); (0x00C6, [0x00E6]); (0x00C7, [0x00E7]);
  (0x00C8, [0x00E8]); (0x00C9, [0x00E9]); (0x00CA, [0x00EA]); (0x00CB, [0x00EB]);
  (0x00CC, [0x00EC]); (0x00CD, [0x00ED]); (0x00CE, [0x00EE]); (0x00CF, [0x00EF]);
  (0x00D0, [0x00F0]); (0x00D1, [0x00F1]); (0x00D2, [0x00F2]); (0x00D3, [0x00F3]);
  (0x00D4, [0x00F4]); (0x00D5, [0x00F5]); (0x00D6, [0x00F6]); (0x00D8, [0x00F8]);
  (0x00D9, [0x00F9]); (0x00DA, [0x00FA]); (0x00DB, [0x00FB]); (0x00DC, [0x00FC]);
  (0x00DD, [0x00FD]); (0x00DE, [0x00FE]); (0x0100, [0x0101]); (0x0102, [0x0103]);
  (0x0104, [0x0105]); (0x0106, [0x0107]); (0x0108, [0x0109]); (0x010A, [0x010B]);
  (0x010C, [0x010D]); (0x010E, [0x010F]); (0x0110, [0x0111]); (0x0112, [0x0113]);
  (0x0114, [0x0115]); (0x0116, [0x0117]); (0x0118, [0x0119]); (0x011A, [0x011B]);
  (0x011C, [0x011D]); (0x011E, [0x011F]); (0x0120, [0x0121]); (0x0122, [0x0123]);
  (0x0124, [0x0125]); (0x0126, [0x0127]); (0x0128, [0x0129]); (0x012A, [0x012B]);
  (0x012C, [0x012D]); (0x012E, [0x012F]); (0x0130, [0x0069; 0x0307]); (0x0132, [0x0133]);
  (0x0134, [0x0135]); (0x0136, [0x0137]); (0x0139, [0x013A]); (0x013B, [0x013C]);
  (0x013D, [0x013E]); (0x013F, [0x0140]); (0x0141, [0x0142]); (0x0143, [0x0144]);
  (0x0145, [0x0146]); (0x0147, [0x0148]); (0x014A, [0x014B]); (0x014C, [0x014D]);
  (0x014E, [0x014F]); (0x0150, [0x0151]); (0x0152, [0x0153]); (0x0154, [0x0155]);
  (0x0156, [0x0157]); (0x0158, [0x0159]); (0x015A, [0x015B]); (0x015C, [0x015D]);
  (0x015E, [0x015F]); (0x0160, [0x0161]); (0x0162, [0x0163]); (0x0164, [0x0165]);
  (0x0166, [0x0167]); (0x0168, [0x0169]); (0x016A, [0x016B]); (0x016C, [0x016D]);
  (0x016E, [0x016F]); (0x0170, [0x0171]); (0x0172, [0x0173]); (0x0174, [0x0175]);
  (0x0176, [0x0177]); (0x0178, [0x00FF]); (0x0179, [0x017A]); (0x017B, [0x017C]);
  (0x017D, [0x017E]); (0x1E00, [0x1E01]); (0x1E02, [0x1E03]); (0x1E04, [0x1E05]);
  (0x1E06, [0x1E07]); (0x1E08, [0x1E09]); (0x1E0A, [0x1E0B]); (0x1E0C, [0x1E0D]);
  (0x1E0E, [0x1E0F]); (0x1E10, [0x1E11]); (0x1E12, [0x1E13]); (0x1E14, [0x1E15]);
  (0x1E16, [0x1E17]); (0x1E18, [0x1E19]); (0x1E1A, [0x1E1B]); (0x1E1C, [0x1E1D]);
  (0x1E1E, [0x1E1F]); (0x1E20, [0x1E21]); (0x1E22, [0x1E23]); (0x1E24, [0x1E25]);
  (0x1E26, [0x1E27]); (0x1E28, [0x1E29]); (0x1E2A, [0x1E2B]); (0x1E2C, [0x1E2D]);
  (0x1E2E, [0x1E2F]); (0x1E30, [0x1E31]); (0x1E32, [0x1E33]); (0x1E34, [0x1E35]);
  (0x1E36, [0x1E37]); (0x1E38, [0x1E39]); (0x1E3A, [0x1E3B]); (0x1E3C, [0x1E3D]);
  (0x1E3E, [0x1E3F]); (0x1E40, [0x1E41]); (0x1E42, [0x1E43]); (0x1E44, [0x1E45]);
  (0x1E46, [0x1E47]); (0x1E48, [0x1E49]); (0x1E4A, [0x1E4B]); (0x1E4C, [0x1E4D]);
  (0x1E4E, [0x1E4F]); (0x1E50, [0x1E51]); (0x1E52, [0x1E53]); (0x1E54, [0x1E55]);
  (0x1E56, [0x1E57]); (0x1E58, [0x1E59]); (0x1E5A, [0x1E5B]); (0x1E5C, [0x1E5D]);
  (0x1E5E, [0x1E5F]); (0x1E60, [0x1E61]); (0x1E62, [0x1E63]); (0x1E64, [0x1E65]);
  (0x1E66, [0x1E67]); (0x1E68, [0x1E69]); (0x1E6A, [0x1E6B]); (0x1E6C, [0x1E6D]);
  (0x1E6E, [0x1E6F]); (0x1E70, [0x1E71]); (0x1E72, [0x1E73]); (0x1E74, [0x1E75]);
  (0x1E76, [0x1E77]); (0x1E78, [0x1E79]); (0x1E7A, [0x1E7B]); (0x1E7C, [0x1E7D]);
  (0x1E7E, [0x1E7F]); (0x1E80, [0x1E81]); (0x1E82, [0x1E83]); (0x1E84, [0x1E85]);
  (0x1E86, [0x1E87]); (0x1E88, [0x1E89]); (0x1E8A, [0x1E8B]); (0x1E8C, [0x1E8D]);
  (0x1E8E, [0x1E8F]); (0x1E90, [0x1E91]); (0x1E92, [0x1E93]); (0x1E94, [0x1E95]);
  (0x1E9E, [0x00DF]); (0x1EA0, [0x1EA1]); (0x1EA2, [0x1EA3]); (0x1EA4, [0x1EA5]);
  (0x1EA6, [0x1EA7]); (0x1EA8, [0x1EA9]); (0x1EAA, [0x1EAB]); (0x1EAC, [0x1EAD]);
  (0x1EAE, [0x1EAF]); (0x1EB0, [0x1EB1]); (0x1EB2, [0x1EB3]); (0x1EB4, [0x1EB5]);
  (0x1EB6, [0x1EB7]); (0x1EB8, [0x1EB9]); (0x1EBA, [0x1EBB]); (0x1EBC, [0x1EBD]);
  (0x1EBE, [0x1EBF]); (0x1EC0, [0x1EC1]); (0x1EC2, [0x1EC3]); (0x1EC4, [0x1EC5]);
  (0x1EC6, [0x1EC7]); (0x1EC8, [0x1EC9]); (0x1ECA, [0x1ECB]); (0x1ECC, [0x1ECD]);
  (0x1ECE, [0x1ECF]); (0x1ED0, [0x1ED1]); (0x1ED2, [0x1ED3]); (0x1ED4, [0x1ED5]);
  (0x1ED6, [0x1ED7]); (0x1ED8, [0x1ED9]); (0x1EDA, [0x1EDB]); (0x1EDC, [0x1EDD]);
  (0x1EDE, [0x1EDF]); (0x1EE0, [0x1EE1]); (0x1EE2, [0x1EE3]); (0x1EE4, [0x1EE5]);
  (0x1EE6, [0x1EE7]); (0x1EE8, [0x1EE9]); (0x1EEA, [0x1EEB]); (0x1EEC, [0x1EED]);
  (0x1EEE, [0x1EEF]); (0x1EF0, [0x1EF1]); (0x1EF2, [0x1EF3]); (0x1EF4, [0x1EF5]);
  (0x1EF6, [0x1EF7]); (0x1EF8, [0x1EF9]); (0x1EFA, [0x1EFB]); (0x1EFC, [0x1EFD]);
  (0x1EFE, [0x1EFF])
].

Definition combining_table : list (N * N) := [
  (0x0300, 230); (0x0301, 230); (0x0302, 230); (0x0303, 230); (0x0304, 230);
  (0x0305, 230); (0x0306, 230); (0x0307, 230); (0x0308, 230); (0x0309, 230);
  (0x030A, 230); (0x030B, 230); (0x030C, 230); (0x030D, 230); (0x030E, 230);
  (0x030F, 230); (0x0310, 230); (0x0311, 230); (0x0312, 230); (0x0313, 230);
  (0x0314, 230); (0x0315, 232); (0x0316, 220); (0x0317, 220); (0x0318, 220);
  (0x0319, 220); (0x031A, 232); (0x031B, 216); (0x031C, 220); (0x031D, 220);
  (0x031E, 220); (0x031F, 220); (0x0320, 220); (0x0321, 202); (0x0322, 202);
  (0x0323, 220); (0x0324, 220); (0x0325, 220); (0x0326, 220); (0x0327, 202);
  (0x0328, 202); (0x0329, 220); (0x032A, 220); (0x032B, 220); (0x032C, 220);
  (0x032D, 220); (0x032E, 220); (0x032F, 220); (0x0330, 220); (0x0331, 220);
  (0x0332, 220); (0x0333, 220); (0x0334, 1); (0x0335, 1); (0x0336, 1); (0x0337, 1);
  (0x0338, 1); (0x0339, 220); (0x033A, 220); (0x033B, 220); (0x033C, 220); (0x033D, 230);
  (0x033E, 230); (0x033F, 230); (0x0340, 230); (0x0341, 230); (0x0342, 230);
  (0x0343, 230); (0x0344, 230); (0x0345, 240); (0x0346, 230); (0x0347, 220);
  (0x0348, 220); (0x0349, 220); (0x034A, 230); (0x034B, 230); (0x034C, 230);
  (0x034D, 220); (0x034E, 220); (0x0350, 230); (0x0351, 230); (0x0352, 230);
  (0x0353, 220); (0x0354, 220); (0x0355, 220); (0x0356, 220); (0x0357, 230);
  (0x0358, 232); (0x0359, 220); (0x035A, 220); (0x035B, 230); (0x035C, 233);
  (0x035D, 234); (0x035E, 234); (0x035F, 233); (0x0360, 234); (0x0361, 234);
  (0x0362, 233); (0x0363, 230); (0x0364, 230); (0x0365, 230); (0x0366, 230);
  (0x0367, 230); (0x0368, 230); (0x0369, 230); (0x036A, 230); (0x036B, 230);
  (0x036C, 230); (0x036D, 230); (0x036E, 230); (0x036F, 230)
].

Definition latin_ucd : UnicodeData := {|
  decomposition c := default [c] (assoc c decomposition_table);
  combining c := default 0 (assoc c combining_table);
  category_Mn c := (0x0300 <=? c) && (c <=? 0x036F);
  lower c :=
    if (0x41 <=? c) && (c <=? 0x5A) then [c + 32]
    else default [c] (assoc c lower_table)
|}.

End LatinExcerpt.

(** ** scripts/generate_city_datasets.py *)

Module generate_city_datasets.
Section normalization.
Context `{U : UnicodeData}.

Definition transliteration_map : gmap N str :=
  list_to_map [
    (ch "Đ", lit "D"); (ch "đ", lit "d");
    (ch "Ð", lit "D"); (ch "ð", lit "d");
    (ch "Ø", lit "O"); (ch "ø", lit "o");
    (ch "Æ", lit "AE"); (ch "æ", lit "ae");
    (ch "Œ", lit "OE"); (ch "œ", lit "oe");
    (ch "ẞ", lit "SS"); (ch "ß", lit "ss");
    (ch "Þ", lit "TH"); (ch "þ", lit "th");
    (ch "Ł", lit "L"); (ch "ł", lit "l")
  ].

(** Step 1, one iteration: [result.append(...)]. *)
Definition transliterate (result : list str) (char : N) : list str :=
  match transliteration_map !! char with
  | Some t => result ++ [t]
  | None => result ++ [[char]]
  end.

(** Step 3, one iteration. *)
Definition keep_char (normalized : list str) (char : N) : result (list str) :=
  if category_Mn char then Ok normalized
  else
    let char_lower := lower char in
    c ← ord char_lower;
    if (ch "a" <=? c) && (c <=? ch "z") then Ok (normalized ++ [char_lower])
    else if (ch "0" <=? c) && (c <=? ch "9") then Ok (normalized ++ [char_lower])
    else if bool_decide (char_lower ∈ [lit " "; lit "-"; lit "_"])
         then Ok (normalized ++ [char_lower])
    else Ok normalized.

Definition normalize_city_name (name : value) : result str :=
  if negb (truthy name) then Ok []
  else
    match name with
    | PStr name =>
        let result := foldl transliterate [] name in
        let transliterated := join result in
        let nfd := Unicode.normalize_NFD transliterated in
        normalized ← for_each keep_char nfd [];
        Ok (join normalized)
    | _ => Raise TypeError
    end.

End normalization.

Section main.
Context `{U : UnicodeData} `{F : FloatParser}.

(** The first [try] statement of the loop body: the population. *)
Definition parse_population (row : gmap string value) : result Z :=
  try_except
    (p ← getitem row "population";
     if truthy p then
       p' ← getitem row "population";
       f ← py_float p';
       int_of_float f
     else Ok 0%Z)
    [ValueError; KeyError]
    (Ok 0%Z).

(** The body of the second [try] statement: the coordinates. *)
Definition parse_coordinates (row : gmap string value)
  : result (spec_float * spec_float) :=
  lat_ ← getitem row "lat";
  lat ← py_float lat_;
  lng_ ← getitem row "lng";
  lng ← py_float lng_;
  Ok (lat, lng).

(** One iteration of the loop over the CSV rows; [cities] is the list
    built so far.  The result is the list after the iteration ([continue]
    leaves it as it is), or the exception that leaves [main]. *)
Definition read_row (cities : list (gmap string value)) (row : gmap string value)
  : result (list (gmap string value)) :=
  population ← parse_population row;
  match parse_coordinates row with
  | Raise e =>
      if bool_decide (e ∈ [ValueError; KeyError]) then Ok cities else Raise e
  | Ok (lat, lng) =>
      name ← getitem row "city";
      country ← getitem row "country";
      country_code ← getitem row "iso2";
      let city : gmap string value :=
        <["name" := name]> (<["country" := country]>
        (<["country_code" := country_code]> (<["lat" := PFloat lat]>
        (<["lon" := PFloat lng]> (<["population" := PInt population]> ∅))))) in
      Ok (cities ++ [city])
  end.

(** The sort key: [lambda x: normalize_city_name(x['name'])]. *)
Definition sort_key (x : gmap string value) : result str :=
  name ← getitem x "name";
  normalize_city_name name.

(** [main] from the rows of the CSV file to the two lists that are written
    out, with its two constants as parameters. *)
Definition build (hot_limit all_limit : nat) (rows : list (gmap string value))
  : result (list (gmap string value) * list (gmap string value)) :=
  cities ← for_each read_row rows [];
  cities ← sort_by_key sort_key cities;
  let hot_cities := take hot_limit cities in
  let all_cities := take all_limit cities in
  Ok (hot_cities, all_cities).

Definition HOT_CITIES_COUNT : nat := 500.
Definition ALL_CITIES_COUNT : nat := N.to_nat 48000.

Definition main (rows : list (gmap string value)) :=
  build HOT_CITIES_COUNT ALL_CITIES_COUNT rows.

End main.
End generate_city_datasets.

(** ** scripts/validate_city_sorting.py *)

Module validate_city_sorting.
Section normalization.
Context `{U : UnicodeData}.

Definition transliteration_map : gmap N str :=
  list_to_map [
    (ch "Đ", lit "D"); (ch "đ", lit "d");
    (ch "Ð", lit "D"); (ch "ð", lit "d");
    (ch "Ø", lit "O"); (ch "ø", lit "o");
    (ch "Æ", lit "AE"); (ch "æ", lit "ae");
    (ch "Œ", lit "OE"); (ch "œ", lit "oe");
    (ch "ẞ", lit "SS"); (ch "ß", lit "ss");
    (ch "Þ", lit "TH"); (ch "þ", lit "th");
    (ch "Ł", lit "L"); (ch "ł", lit "l")
  ].

Definition transliterate (result : list str) (char : N) : list str :=
  match transliteration_map !! char with
  | Some t => result ++ [t]
  | None => result ++ [[char]]
  end.

Definition keep_char (normalized : list str) (char : N) : result (list str) :=
  if category_Mn char then Ok normalized
  else
    let char_lower := lower char in
    c ← ord char_lower;
    if (ch "a" <=? c) && (c <=? ch "z") then Ok (normalized ++ [char_lower])
    else if (ch "0" <=? c) && (c <=? ch "9") then Ok (normalized ++ [char_lower])
    else if bool_decide (char_lower ∈ [lit " "; lit "-"; lit "_"])
         then Ok (normalized ++ [char_lower])
    else Ok normalized.

Definition normalize_city_name (name : value) : result str :=
  if negb (truthy name) then Ok []
  else
    match name with
    | PStr name =>
        let result := foldl transliterate [] name in
        let transliterated := join result in
        let nfd := Unicode.normalize_NFD transliterated in
        normalized ← for_each keep_char nfd [];
        Ok (join normalized)
    | _ => Raise TypeError
    end.

End normalization.

(** What [open] and [json.load] give for the file, and what the test on
    [data['cities']] finds. *)
Inductive json_file :=
| Unreadable
| NoCitiesArray
| CitiesArray (cities : list (gmap string value)).

(** An entry of the list [errors].  [MissingName i] is the text
    "City at index i missing 'name' field"; [SortingViolation] is the text
    "Sorting violation at index i" with the previous name and key and the
    current name and key. *)
Inductive error :=
| MissingName (i : nat)
| SortingViolation (i : nat) (prev_name : value) (prev_normalized : str)
    (name : value) (normalized : str).

(** The second component of the result.  [Errors errors] is the text
    ["\n".join(errors)]. *)
Inductive error_message :=
| FailedToLoad
| InvalidFormat
| EmptyCities
| Errors (errors : list error).

Record stats := { total : nat; first : value; last : value }.

(** The variables of the checking loop. *)
Record check_state := {
  errors : list error;
  prev_normalized : option str;
  prev_city : option (gmap string value)
}.

Section validate_sorting.
Context `{U : UnicodeData}.

(** One iteration of [for i, city in enumerate(cities)]. *)
Definition check_city (st : check_state) (i : nat) (city : gmap string value)
  : result check_state :=
  match city !! "name" with
  | None =>
      Ok {| errors := errors st ++ [MissingName i];
            prev_normalized := prev_normalized st;
            prev_city := prev_city st |}
  | Some name =>
      normalized ← normalize_city_name name;
      errors' ←
        match prev_normalized st with
        | Some prev =>
            if str_lt normalized prev then
              prev_name ←
                match prev_city st with
                | Some c => getitem c "name"
                | None => Raise TypeError
                end;
              Ok (errors st ++ [SortingViolation i prev_name prev name normalized])
            else Ok (errors st)
        | None => Ok (errors st)
        end;
      Ok {| errors := errors';
            prev_normalized := Some normalized;
            prev_city := Some city |}
  end.

Definition initial : check_state :=
  {| errors := []; prev_normalized := None; prev_city := None |}.

(** [cities[0]['name']] and [cities[-1]['name']]. *)
Definition name_at (city : option (gmap string value)) : result value :=
  match city with
  | Some c => getitem c "name"
  | None => Raise TypeError
  end.

(** The result [(is_valid, error_message, stats)]. *)
Definition validate_sorting (file : json_file)
  : result (bool * option error_message * option stats) :=
  match file with
  | Unreadable => Ok (false, Some FailedToLoad, None)
  | NoCitiesArray => Ok (false, Some InvalidFormat, None)
  | CitiesArray cities =>
      if bool_decide (length cities = 0%nat) then Ok (false, Some EmptyCities, None)
      else
        st ← for_enumerate check_city 0 cities initial;
        if negb (bool_decide (errors st = [])) then
          Ok (false, Some (Errors (errors st)), None)
        else
          first ← name_at (head cities);
          last ← name_at (list.last cities);
          Ok (true, None,
              Some {| total := length cities; first := first; last := last |})
  end.

End validate_sorting.

Section main.
Context `{U : UnicodeData}.

(** [main], from what the two files hold to the exit status: the hot file is
    validated, then the all file, whatever the first result was. *)
Definition main (hot_cities all_cities : json_file) : result Z :=
  let all_valid := true in
  r ← validate_sorting hot_cities;
  let '(is_valid, error_, stats_) :=
    (r : bool * option error_message * option stats) in
  let all_valid := if is_valid then all_valid else false in
  r ← validate_sorting all_cities;
  let '(is_valid, error_, stats_) :=
    (r : bool * option error_message * option stats) in
  let all_valid := if is_valid then all_valid else false in
  if all_valid then Ok 0%Z else Ok 1%Z.

End main.
End validate_city_sorting.

(** ** Vocabulary of the statements *)

(** The characters of a sort key: [a-z], [0-9], space, hyphen, underscore. *)
Definition allowed (c : N) : bool :=
  (ch "a" <=? c) && (c <=? ch "z") || (ch "0" <=? c) && (c <=? ch "9")
  || bool_decide ([c] ∈ [lit " "; lit "-"; lit "_"]).

(** [p] may stand before [q] in a list sorted by key: the key of [q] is not
    smaller. *)
Definition key_le {A : Type} (p q : str * A) : Prop := str_lt q.1 p.1 = false.

(** The keys of adjacent elements never decrease. *)
Definition sorted_by_key {A : Type} (key : A -> result str) (l : list A) : Prop :=
  forall i a b, l !! i = Some a -> l !! S i = Some b ->
    exists ka kb, key a = Ok ka /\ key b = Ok kb /\ str_le ka kb = true.

(** The field [k] of the row holds a value that [float] accepts. *)
Definition parsed `{F : FloatParser} (row : gmap string value) (k : string)
    (f : spec_float) : Prop :=
  exists v, row !! k = Some v /\ py_float v = Ok f.

(** The row has no field [k], or [float] rejects its value by ValueError. *)
Definition unparseable `{F : FloatParser} (row : gmap string value) (k : string)
    : Prop :=
  row !! k = None \/ exists v, row !! k = Some v /\ py_float v = Raise ValueError.

(** The field [k], when the row has it, is a [str], as the CSV reader gives
    it for a row that has all its columns. *)
Definition textual (row : gmap string value) (k : string) : Prop :=
  forall v, row !! k = Some v -> exists s, v = PStr s.

(** The integer part of a finite double: rounding towards zero. *)
Definition truncate (f : spec_float) : Z :=
  match f with
  | S754_finite s m e =>
      let n := if s then Zneg m else Zpos m in
      if (0 <=? e)%Z then (n * 2 ^ e)%Z else Z.quot n (2 ^ (- e))
  | _ => 0%Z
  end.

(** The closest record with a name, seen from the end of [l]. *)
Definition last_named (l : list (gmap string value)) : option (gmap string value) :=
  last (filter (fun c => is_Some (c !! "name")) l).

(** The sort key of a record, as the validator computes it. *)
Definition city_key `{U : UnicodeData} (c : gmap string value) : result str :=
  name ← getitem c "name";
  validate_city_sorting.normalize_city_name name.

(** The defect [e] of the record [c] at index [j], the records [before]
    standing before it: [c] has no name; or its key is smaller than the key
    of the closest record before it that has a name. *)
Definition reported_at `{U : UnicodeData} (before : list (gmap string value))
    (c : gmap string value) (j : nat) (e : validate_city_sorting.error) : Prop :=
  (c !! "name" = None /\ e = validate_city_sorting.MissingName j)
  \/ (exists n k p pn pk,
        c !! "name" = Some n
        /\ validate_city_sorting.normalize_city_name n = Ok k
        /\ last_named before = Some p
        /\ p !! "name" = Some pn
        /\ validate_city_sorting.normalize_city_name pn = Ok pk
        /\ str_lt k pk = true
        /\ e = validate_city_sorting.SortingViolation j pn pk n k).

(** The defects of a dataset. *)
Definition reported `{U : UnicodeData} (cities : list (gmap string value))
    (e : validate_city_sorting.error) : Prop :=
  exists j c, cities !! j = Some c /\ reported_at (take j cities) c j e.

(** The loop variables [prev_city] and [prev_normalized] after the records
    [before]: the closest record with a name and its key. *)
Definition tracks `{U : UnicodeData} (st : validate_city_sorting.check_state)
    (before : list (gmap string value)) : Prop :=
  match last_named before with
  | None =>
      validate_city_sorting.prev_normalized st = None
      /\ validate_city_sorting.prev_city st = None
  | Some p =>
      validate_city_sorting.prev_city st = Some p
      /\ exists pn pk,
          p !! "name" = Some pn
          /\ validate_city_sorting.normalize_city_name pn = Ok pk
          /\ validate_city_sorting.prev_normalized st = Some pk
  end.

(** Lower case of an ASCII character. *)
Definition to_lower_ascii (c : N) : N :=
  if (65 <=? c) && (c <=? 90) then c + 32 else c.

(** The text after step 1 of the normalization: every character of the
    transliteration table replaced by its ASCII letters. *)
Definition transliterated (name : str) : str :=
  flat_map (fun c => default [c] (generate_city_datasets.transliteration_map !! c))
    name.

(** The index that an entry of [errors] names. *)
Definition error_index (e : validate_city_sorting.error) : nat :=
  match e with
  | validate_city_sorting.MissingName i => i
  | validate_city_sorting.SortingViolation i _ _ _ _ => i
  end.


(** The city object that the generator makes of a row. *)
Definition city_of_row (row : gmap string value) (lat lng : spec_float) (p : Z)
    (c : gmap string value) : Prop :=
  exists name country code,
    row !! "city" = Some name /\ row !! "country" = Some country
    /\ row !! "iso2" = Some code
    /\ c = <["name" := name]> (<["country" := country]>
           (<["country_code" := code]> (<["lat" := PFloat lat]>
           (<["lon" := PFloat lng]> (<["population" := PInt p]> ∅))))).

#[export] Instance result_eq_dec {A : Type} `{EqDecision A} : EqDecision (result A).
Proof. solve_decision. Defined.

(** A dataset that is in order: it is not empty, every record has a name and
    the keys never decrease. *)
Definition in_order `{U : UnicodeData} (cities : list (gmap string value)) : Prop :=
  cities <> []
  /\ (forall c, c ∈ cities -> is_Some (c !! "name"))
  /\ sorted_by_key city_key cities.

(** A file that holds a dataset in order. *)
Definition file_in_order `{U : UnicodeData} (file : validate_city_sorting.json_file)
    : Prop :=
  match file with
  | validate_city_sorting.CitiesArray cities => in_order cities
  | _ => False
  end.

(** ** Sample data *)

Module Sample.

(** A row of the CSV file. *)
Definition row (city lat lng population : string) : gmap string value :=
  <["city" := PStr (lit city)]> (<["country" := PStr (lit "Germany")]>
  (<["iso2" := PStr (lit "DE")]> (<["lat" := PStr (lit lat)]>
  (<["lng" := PStr (lit lng)]> (<["population" := PStr (lit population)]> ∅))))).

(** The city object that the generator makes of a row. *)
Definition city (name : string) (lat lon : spec_float) (population : Z)
  : gmap string value :=
  <["name" := PStr (lit name)]> (<["country" := PStr (lit "Germany")]>
  (<["country_code" := PStr (lit "DE")]> (<["lat" := PFloat lat]>
  (<["lon" := PFloat lon]> (<["population" := PInt population]> ∅))))).

(** A city object with a name only, as the validator reads it. *)
Definition named (name : string) : gmap string value :=
  <["name" := PStr (lit name)]> ∅.

(** The doubles 50.5 and 7.0. *)
Definition f50_5 : spec_float := S754_finite false 7107243161944064 (-47).
Definition f7 : spec_float := S754_finite false 7881299347898368 (-50).

Definition rows : list (gmap string value) :=
  [ row "Köln" "50.5" "7" "1000000";
    row "Atlantis" "unknown" "7" "1";
    row "Aachen" "50.5" "7" "250000";
    row "Bonn" "50.5" "7" "330000" ].

End Sample.

(** * Properties *)

(** ** The monad and the loops *)

Lemma bind_Ok {A B : Type} (m : result A) (k : A -> result B) (b : B) :
  m ≫= k = Ok b <-> exists a, m = Ok a /\ k a = Ok b.
Proof.
  destruct m as [a|e]; simpl; split.
  - intros H. exists a. done.
  - intros (a' & [= ->] & H). done.
  - discriminate.
  - intros (a' & [=] & _).
Qed.

Lemma for_each_app {St A : Type} (body : St -> A -> result St) (l1 l2 : list A)
    (st : St) :
  for_each body (l1 ++ l2) st = st' ← for_each body l1 st; for_each body l2 st'.
Proof.
  revert st. induction l1 as [|x l1 IH]; intros st; simpl; [done|].
  destruct (body st x) as [st1|e]; simpl; [apply IH|done].
Qed.

Lemma for_enumerate_app {St A : Type} (body : St -> nat -> A -> result St)
    (i : nat) (l1 l2 : list A) (st : St) :
  for_enumerate body i (l1 ++ l2) st =
  st' ← for_enumerate body i l1 st; for_enumerate body (i + length l1) l2 st'.
Proof.
  revert i st. induction l1 as [|x l1 IH]; intros i st; simpl.
  - by rewrite Nat.add_0_r.
  - destruct (body st i x) as [st1|e]; simpl; [|done].
    rewrite IH. by replace (S i + length l1)%nat with (i + S (length l1))%nat by lia.
Qed.

(** ** The order on [str] *)

Lemma str_lt_irrefl (a : str) : str_lt a a = false.
Proof.
  induction a as [|x a IH]; simpl; [done|].
  by rewrite N.ltb_irrefl.
Qed.

Lemma str_lt_asym (a b : str) : str_lt a b = true -> str_lt b a = false.
Proof.
  revert b. induction a as [|x a IH]; intros [|y b]; simpl; try done.
  destruct (x <? y) eqn:Hxy.
  - intros _. apply N.ltb_lt in Hxy.
    destruct (y <? x) eqn:Hyx; [apply N.ltb_lt in Hyx; lia|].
    done.
  - destruct (y <? x) eqn:Hyx; [done|]. apply IH.
Qed.

Lemma str_lt_trans (a b c : str) :
  str_lt a b = true -> str_lt b c = true -> str_lt a c = true.
Proof.
  revert b c. induction a as [|x a IH]; intros [|y b] [|z c]; simpl; try done.
  destruct (x <? y) eqn:Hxy, (y <? z) eqn:Hyz, (x <? z) eqn:Hxz;
    try done; rewrite ?N.ltb_lt, ?N.ltb_ge in *; try lia.
  - destruct (z <? y) eqn:Hzy; [done|]. intros _ _.
    destruct (z <? x) eqn:Hzx; rewrite ?N.ltb_lt, ?N.ltb_ge in *; lia.
  - destruct (y <? x) eqn:Hyx; [done|]. intros _ _.
    destruct (z <? x) eqn:Hzx; rewrite ?N.ltb_lt, ?N.ltb_ge in *; lia.
  - destruct (y <? x) eqn:Hyx; [done|].
    destruct (z <? y) eqn:Hzy; [done|].
    rewrite ?N.ltb_ge in *.
    assert (x = y) as -> by lia. assert (y = z) as -> by lia.
    rewrite N.ltb_irrefl. apply IH.
Qed.

Lemma str_lt_total (a b : str) :
  str_lt a b = false -> str_lt b a = false -> a = b.
Proof.
  revert b. induction a as [|x a IH]; intros [|y b]; simpl; try done.
  destruct (x <? y) eqn:Hxy; [done|].
  destruct (y <? x) eqn:Hyx; [done|].
  rewrite ?N.ltb_ge in *. intros Hab Hba.
  assert (x = y) as -> by lia. f_equal. by apply IH.
Qed.

(** ** The excerpt of the database satisfies the laws *)

Section Excerpt.
Import LatinExcerpt.

Lemma assoc_Some {V : Type} (c : N) (table : list (N * V)) (v : V) :
  assoc c table = Some v -> In (c, v) table.
Proof.
  induction table as [|[k w] table IH]; simpl; [done|].
  destruct (k =? c) eqn:Hk.
  - apply N.eqb_eq in Hk as ->. intros [= ->]. by left.
  - intros H. right. by apply IH.
Qed.

(** What a test that holds of every entry says of a look-up. *)
Lemma assoc_forallb {V : Type} (test : N * V -> bool) (c : N)
    (table : list (N * V)) (v : V) :
  forallb test table = true -> assoc c table = Some v -> test (c, v) = true.
Proof.
  intros Hall Hc. apply assoc_Some in Hc.
  rewrite forallb_forall in Hall. by apply Hall.
Qed.

Lemma assoc_below {V : Type} (bound c : N) (table : list (N * V)) :
  forallb (fun p => bound <=? p.1) table = true -> c < bound ->
  assoc c table = None.
Proof.
  intros Hall Hc. destruct (assoc c table) as [v|] eqn:Hv; [|done].
  apply (assoc_forallb _ _ _ _ Hall) in Hv. simpl in Hv.
  apply N.leb_le in Hv. lia.
Qed.

Lemma latin_ucd_laws : UnicodeLaws latin_ucd.
Proof.
  split; intros c; cbn [decomposition combining category_Mn lower latin_ucd].
  - intros Hc. by rewrite (assoc_below 128) by (done || by vm_compute).
  - intros Hc. by rewrite (assoc_below 128) by (done || by vm_compute).
  - intros Hc. apply andb_false_iff. left. apply N.leb_gt. lia.
  - intros Hc. change (0x41 <=? c) with (65 <=? c).
    change (c <=? 0x5A) with (c <=? 90).
    destruct ((65 <=? c) && (c <=? 90)); [done|].
    by rewrite (assoc_below 128) by (done || by vm_compute).
  - intros Hc. destruct ((0x41 <=? c) && (c <=? 0x5A)); [done|].
    destruct (assoc c lower_table) as [v|] eqn:Hv; [|done].
    apply (assoc_forallb
             (fun p => (p.1 =? 0x130) || (length p.2 =? 1)%nat)) in Hv;
      [|by vm_compute].
    cbn [fst snd] in Hv. apply orb_true_iff in Hv as [Hv|Hv].
    + by apply N.eqb_eq in Hv.
    + by apply Nat.eqb_eq in Hv.
  - destruct (assoc c decomposition_table) as [v|] eqn:Hv; cbn [default].
    + apply (assoc_forallb
             (fun p => negb (bool_decide (0x130 ∈ p.2)))) in Hv;
        [|by vm_compute].
      cbn [snd] in Hv. by apply negb_true_iff, bool_decide_eq_false in Hv.
    + intros Hin. apply list_elem_of_singleton in Hin. subst c.
      by vm_compute in Hv.
Qed.

End Excerpt.

Lemma ascii_float_laws : FloatLaws AsciiFloat.ascii_float.
Proof.
  split. intros s e. simpl. unfold AsciiFloat.parse.
  repeat case_match; congruence.
Qed.

(** ** Normalization *)

Lemma concat_singletons {A : Type} (l : list A) : concat (map (fun c => [c]) l) = l.
Proof. induction l as [|x l IH]; simpl; [done|]. by rewrite IH. Qed.

Lemma allowed_ascii (c : N) :
  allowed c = true -> c < 128 /\ (65 <=? c) && (c <=? 90) = false.
Proof.
  unfold allowed.
  change (ch "a") with 97. change (ch "z") with 122.
  change (ch "0") with 48. change (ch "9") with 57.
  change [lit " "; lit "-"; lit "_"] with [[32]; [45]; [95]].
  rewrite !orb_true_iff, !andb_true_iff, !N.leb_le, bool_decide_eq_true,
    andb_false_iff, !N.leb_gt.
  rewrite !elem_of_cons, elem_of_nil.
  intros [[H|H]|[H|[H|[H|[]]]]]; try injection H as ->; lia.
Qed.

Section Normalization.
Import generate_city_datasets.
Context `{U : UnicodeData}.

Lemma foldl_transliterate (acc : list str) (name : str) :
  foldl transliterate acc name =
  acc ++ map (fun c => default [c] (transliteration_map !! c)) name.
Proof.
  revert acc. induction name as [|c name IH]; intros acc; simpl.
  - by rewrite app_nil_r.
  - rewrite IH. unfold transliterate.
    destruct (transliteration_map !! c); simpl; by rewrite <- app_assoc.
Qed.

Lemma keep_char_cases (normalized : list str) (char : N) (out : list str) :
  keep_char normalized char = Ok out ->
  out = normalized \/ exists c, allowed c = true /\ out = normalized ++ [[c]].
Proof.
  unfold keep_char. destruct (category_Mn char); [intros [= <-]; by left|].
  destruct (lower char) as [|c [|? ?]]; cbn [ord mbind result_bind];
    try discriminate.
  destruct ((ch "a" <=? c) && (c <=? ch "z")) eqn:Hletter;
    [intros [= <-]; right; exists c; unfold allowed; by rewrite Hletter|].
  destruct ((ch "0" <=? c) && (c <=? ch "9")) eqn:Hdigit;
    [intros [= <-]; right; exists c; unfold allowed;
     by rewrite Hletter, Hdigit|].
  destruct (bool_decide ([c] ∈ [lit " "; lit "-"; lit "_"])) eqn:Hother;
    intros [= <-]; [right; exists c; unfold allowed | by left].
  by rewrite Hletter, Hdigit, Hother.
Qed.

Lemma for_each_keep_char (nfd : str) (acc out : list str) :
  for_each keep_char nfd acc = Ok out ->
  exists kept, out = acc ++ map (fun c => [c]) kept
               /\ Forall (fun c => allowed c = true) kept.
Proof.
  revert acc. induction nfd as [|char nfd IH]; intros acc; simpl.
  - intros [= <-]. exists []. by rewrite app_nil_r.
  - intros H. apply bind_Ok in H as (acc' & Hstep & Hrest).
    apply IH in Hrest as (kept & -> & Hkept).
    apply keep_char_cases in Hstep as [->|(c & Hc & ->)].
    + by exists kept.
    + exists (c :: kept). rewrite <- app_assoc. split; [done|].
      by constructor.
Qed.

(** A sort key is made of the allowed characters only. *)
Lemma normalize_city_name_allowed (name : value) (t : str) :
  normalize_city_name name = Ok t -> Forall (fun c => allowed c = true) t.
Proof.
  unfold normalize_city_name.
  destruct (negb (truthy name)); [intros [= <-]; constructor|].
  destruct name as [|s|z|f]; try discriminate.
  intros H. apply bind_Ok in H as (normalized & Hloop & [= <-]).
  apply for_each_keep_char in Hloop as (kept & -> & Hkept).
  unfold join. simpl. by rewrite concat_singletons.
Qed.

Lemma insert_mark_elem (x c : N) (run : str) :
  x ∈ Unicode.insert_mark c run <-> x = c \/ x ∈ run.
Proof.
  induction run as [|d run IH]; simpl.
  - rewrite list_elem_of_singleton, elem_of_nil. tauto.
  - destruct (combining c <? combining d).
    + by rewrite elem_of_cons.
    + rewrite !elem_of_cons, IH. tauto.
Qed.

Lemma canonical_order_elem (x : N) (s run : str) :
  x ∈ Unicode.canonical_order s run -> x ∈ s \/ x ∈ run.
Proof.
  revert run. induction s as [|c s IH]; intros run; simpl; [by right|].
  destruct (combining c =? 0).
  - rewrite elem_of_app, !elem_of_cons. intros [H|[H|H]]; [tauto|tauto|].
    apply IH in H as [H|H]; [tauto|]. by apply elem_of_nil in H.
  - intros H. apply IH in H as [H|H]; rewrite elem_of_cons; [tauto|].
    apply insert_mark_elem in H. tauto.
Qed.

Section WithLaws.
Hypothesis laws : UnicodeLaws U.

Lemma transliteration_map_ascii (c : N) :
  c < 128 -> transliteration_map !! c = None.
Proof.
  intros Hc. apply not_elem_of_list_to_map_1.
  intros Hin. vm_compute fmap in Hin.
  rewrite !elem_of_cons, elem_of_nil in Hin. lia.
Qed.

Lemma normalize_NFD_ascii (s : str) :
  Forall (fun c => c < 128) s -> Unicode.normalize_NFD s = s.
Proof.
  unfold Unicode.normalize_NFD. induction 1 as [|c s Hc Hs IH]; simpl; [done|].
  rewrite (ascii_decomposition _ laws c Hc). simpl.
  rewrite (ascii_combining _ laws c Hc). simpl. by rewrite IH.
Qed.

Lemma keep_char_allowed (normalized : list str) (c : N) :
  allowed c = true -> keep_char normalized c = Ok (normalized ++ [[c]]).
Proof.
  intros Hc. pose proof (allowed_ascii c Hc) as [Hlt Hup].
  unfold keep_char.
  rewrite (ascii_category _ laws c Hlt), (ascii_lower _ laws c Hlt), Hup.
  cbn [ord mbind result_bind]. unfold allowed in Hc.
  destruct ((ch "a" <=? c) && (c <=? ch "z")); [done|].
  destruct ((ch "0" <=? c) && (c <=? ch "9")); [done|].
  cbn [orb] in Hc. by rewrite Hc.
Qed.

Lemma for_each_keep_allowed (t : str) (acc : list str) :
  Forall (fun c => allowed c = true) t ->
  for_each keep_char t acc = Ok (acc ++ map (fun c => [c]) t).
Proof.
  intros Ht. revert acc.
  induction Ht as [|c t Hc Ht IH]; intros acc; cbn [for_each map].
  - by rewrite app_nil_r.
  - rewrite (keep_char_allowed _ _ Hc). cbn [mbind result_bind].
    rewrite IH. by rewrite <- app_assoc.
Qed.

(** A text of allowed characters is its own sort key. *)
Lemma normalize_city_name_fixed (t : str) :
  Forall (fun c => allowed c = true) t -> normalize_city_name (PStr t) = Ok t.
Proof.
  intros Ht. unfold normalize_city_name.
  destruct (negb (truthy (PStr t))) eqn:Hempty.
  { destruct t; [done|discriminate]. }
  assert (Forall (fun c => c < 128) t) as Hascii.
  { eapply Forall_impl; [exact Ht|]. intros x Hx. by apply allowed_ascii. }
  rewrite foldl_transliterate. cbn [app].
  assert (map (fun c => default [c] (transliteration_map !! c)) t
          = map (fun c => [c]) t) as ->.
  { apply map_ext_Forall. eapply Forall_impl; [exact Hascii|].
    intros x Hx. cbn beta. by rewrite transliteration_map_ascii. }
  unfold join. rewrite concat_singletons.
  rewrite normalize_NFD_ascii by done.
  rewrite for_each_keep_allowed by done.
  cbn [mbind result_bind app]. by rewrite concat_singletons.
Qed.

Lemma keep_char_total (normalized : list str) (char : N) :
  char <> 0x130 -> exists out, keep_char normalized char = Ok out.
Proof.
  intros Hchar. unfold keep_char. destruct (category_Mn char); [by eexists|].
  pose proof (lower_one _ laws char Hchar) as Hlen.
  destruct (lower char) as [|c [|? ?]]; try done. simpl.
  repeat case_match; by eexists.
Qed.

Lemma for_each_keep_char_total (nfd : str) (acc : list str) :
  0x130 ∉ nfd -> exists out, for_each keep_char nfd acc = Ok out.
Proof.
  revert acc. induction nfd as [|char nfd IH]; intros acc Hnot; simpl.
  - by eexists.
  - apply not_elem_of_cons in Hnot as [Hchar Hnot].
    destruct (keep_char_total acc char) as [out ->]; [done|]. simpl.
    by apply IH.
Qed.

(** The function returns a key for every [str] and for [None]. *)
Lemma normalize_city_name_total (name : value) :
  (name = PNone \/ exists s, name = PStr s) ->
  exists t, normalize_city_name name = Ok t.
Proof.
  intros [->|[s ->]]; [by exists []|]. unfold normalize_city_name.
  destruct (negb (truthy (PStr s))); [by eexists|].
  destruct (for_each_keep_char_total
    (Unicode.normalize_NFD (join (foldl transliterate [] s))) []) as [out ->].
  - intros Hin. apply canonical_order_elem in Hin as [Hin|Hin];
      [|by apply elem_of_nil in Hin].
    apply list_elem_of_In, in_flat_map in Hin as (c & _ & Hin).
    apply list_elem_of_In in Hin. by apply (decomposition_closed _ laws) in Hin.
  - by eexists.
Qed.

End WithLaws.
End Normalization.

(** C1: the generator and the validator compute the same sort key: for every
    name (a [str] or any other value) the two copies of
    [normalize_city_name] give the same result, over the same Unicode
    database. *)
Theorem normalize_city_name_agree `{U : UnicodeData} (name : value) :
  generate_city_datasets.normalize_city_name name =
  validate_city_sorting.normalize_city_name name.
Proof.
  unfold generate_city_datasets.normalize_city_name,
    validate_city_sorting.normalize_city_name.
  destruct (negb (truthy name)); [reflexivity|].
  destruct name as [|s|z|f]; reflexivity.
Qed.

(** C7: normalization is idempotent on its own output: every [str] has a
    sort key, and the sort key of that key is the key itself. *)
Theorem normalize_city_name_idempotent `{U : UnicodeData} (laws : UnicodeLaws U)
    (s : str) :
  exists t, generate_city_datasets.normalize_city_name (PStr s) = Ok t
            /\ generate_city_datasets.normalize_city_name (PStr t) = Ok t.
Proof.
  destruct (normalize_city_name_total laws (PStr s)) as [t Ht]; [right; by exists s|].
  exists t. split; [done|].
  apply normalize_city_name_fixed; [done|].
  by eapply normalize_city_name_allowed.
Qed.

Lemma normalize_city_name_idempotent_witness :
  exists t,
    generate_city_datasets.normalize_city_name (U := LatinExcerpt.latin_ucd)
      (PStr (lit "Köln")) = Ok t
    /\ generate_city_datasets.normalize_city_name (U := LatinExcerpt.latin_ucd)
         (PStr t) = Ok t.
Proof.
  exact (normalize_city_name_idempotent latin_ucd_laws (lit "Köln")).
Defined.

(** C8: the worked examples, over the excerpt of the Unicode database:
    "Đà Nẵng" gives "da nang", "Søndre Land" gives "sondre land", "Köln"
    gives "koln", and the empty [str] gives the empty [str]. *)
Theorem normalize_city_name_examples :
  let normalize :=
    generate_city_datasets.normalize_city_name (U := LatinExcerpt.latin_ucd) in
  normalize (PStr (lit "Đà Nẵng")) = Ok (lit "da nang")
  /\ normalize (PStr (lit "Søndre Land")) = Ok (lit "sondre land")
  /\ normalize (PStr (lit "Köln")) = Ok (lit "koln")
  /\ normalize (PStr []) = Ok [].
Proof. vm_compute. repeat split. Qed.

(** ** The sort *)

Section Sort.
Context {A : Type}.

Lemma insert_by_key_Permutation (x : str * A) (l : list (str * A)) :
  insert_by_key x l ≡ₚ x :: l.
Proof.
  induction l as [|y l IH]; simpl; [done|].
  destruct (str_lt y.1 x.1); [|done].
  rewrite IH. apply Permutation_swap.
Qed.

Lemma stable_sort_Permutation (l : list (str * A)) : stable_sort l ≡ₚ l.
Proof.
  induction l as [|x l IH]; simpl; [done|].
  by rewrite insert_by_key_Permutation, IH.
Qed.

Lemma insert_by_key_HdRel (x y : str * A) (l : list (str * A)) :
  key_le y x -> HdRel key_le y l -> HdRel key_le y (insert_by_key x l).
Proof.
  intros Hyx Hhd. destruct l as [|z l]; simpl; [by constructor|].
  destruct (str_lt z.1 x.1); constructor; [|done].
  by inversion Hhd.
Qed.

Lemma insert_by_key_Sorted (x : str * A) (l : list (str * A)) :
  Sorted key_le l -> Sorted key_le (insert_by_key x l).
Proof.
  induction 1 as [|y l Hl IH Hhd]; simpl.
  - by repeat constructor.
  - destruct (str_lt y.1 x.1) eqn:Hyx.
    + constructor; [done|]. apply insert_by_key_HdRel; [|done].
      unfold key_le. by apply str_lt_asym.
    + constructor; [by constructor|]. by constructor.
Qed.

Lemma stable_sort_Sorted (l : list (str * A)) : Sorted key_le (stable_sort l).
Proof.
  induction l as [|x l IH]; simpl; [constructor|].
  by apply insert_by_key_Sorted.
Qed.

Lemma Sorted_adjacent (l : list (str * A)) (i : nat) (p q : str * A) :
  Sorted key_le l -> l !! i = Some p -> l !! S i = Some q -> key_le p q.
Proof.
  intros Hl. revert i. induction Hl as [|y l Hl IH Hhd]; intros i; [done|].
  destruct i as [|i]; simpl.
  - intros [= ->] Hq. destruct Hhd as [|z l Hyz]; [done|].
    by injection Hq as ->.
  - apply IH.
Qed.

(** Equal keys keep their order: the elements of any one key appear in the
    output as they do in the input. *)
Lemma insert_by_key_stable (k : str) (x : str * A) (l : list (str * A)) :
  Sorted key_le l ->
  filter (fun p => p.1 = k) (insert_by_key x l) =
  filter (fun p => p.1 = k) (x :: l).
Proof.
  induction 1 as [|y l Hl IH Hhd]; simpl; [done|].
  destruct (str_lt y.1 x.1) eqn:Hyx; [|done].
  rewrite !filter_cons. rewrite filter_cons in IH.
  destruct (decide (y.1 = k)) as [Hy|Hy], (decide (x.1 = k)) as [Hx|Hx];
    rewrite ?IH; try done.
  rewrite Hy, Hx, str_lt_irrefl in Hyx. done.
Qed.

Lemma stable_sort_stable (k : str) (l : list (str * A)) :
  filter (fun p => p.1 = k) (stable_sort l) = filter (fun p => p.1 = k) l.
Proof.
  induction l as [|x l IH]; simpl; [done|].
  rewrite insert_by_key_stable by apply stable_sort_Sorted.
  by rewrite !filter_cons, IH.
Qed.

Lemma mapM_Ok {B : Type} (f : A -> result B) (l : list A) (k : list B) :
  mapM f l = Ok k -> Forall2 (fun x y => f x = Ok y) l k.
Proof.
  revert k. induction l as [|x l IH]; intros k; simpl.
  - intros [= <-]. constructor.
  - intros H. apply bind_Ok in H as (y & Hy & H).
    apply bind_Ok in H as (k' & Hk' & [= <-]).
    constructor; [done|]. by apply IH.
Qed.

Lemma keyed_spec (key : A -> result str) (l : list A) (keyed : list (str * A)) :
  mapM (fun x => k ← key x; mret (k, x)) l = Ok keyed ->
  keyed.*2 = l /\ Forall (fun p => key p.2 = Ok p.1) keyed.
Proof.
  intros H. apply mapM_Ok in H.
  induction H as [|x [k x'] l keyed Hx Hl [IH1 IH2]]; [by split|].
  apply bind_Ok in Hx as (k0 & Hk0 & [= <- <-]).
  split; [by rewrite fmap_cons, IH1|]. by constructor.
Qed.

(** What [l.sort(key=key)] gives when it returns: a permutation of [l] in
    which the keys never decrease. *)
Lemma sort_by_key_spec (key : A -> result str) (l sorted : list A) :
  sort_by_key key l = Ok sorted ->
  sorted ≡ₚ l
  /\ forall i a b, sorted !! i = Some a -> sorted !! S i = Some b ->
       exists ka kb, key a = Ok ka /\ key b = Ok kb /\ str_le ka kb = true.
Proof.
  unfold sort_by_key. intros H.
  apply bind_Ok in H as (keyed & Hkeyed & [= <-]).
  apply keyed_spec in Hkeyed as [Hl Hkeys]. split.
  - rewrite <- Hl. apply fmap_Permutation, stable_sort_Permutation.
  - intros i a b Ha Hb.
    apply list_lookup_fmap_Some in Ha as ([ka a'] & -> & Ha).
    apply list_lookup_fmap_Some in Hb as ([kb b'] & -> & Hb).
    assert (Forall (fun p => key p.2 = Ok p.1) (stable_sort keyed)) as Hsorted.
    { by rewrite stable_sort_Permutation. }
    exists ka, kb. split_and!.
    + apply (Forall_lookup_1 _ _ _ _ Hsorted Ha).
    + apply (Forall_lookup_1 _ _ _ _ Hsorted Hb).
    + pose proof (Sorted_adjacent _ _ _ _ (stable_sort_Sorted keyed) Ha Hb)
        as Hle.
      unfold key_le in Hle. cbn [fst snd] in *. unfold str_le. by rewrite Hle.
Qed.

End Sort.

(** ** The builder: order and prefixes *)

Section Builder.
Import generate_city_datasets.
Context `{U : UnicodeData} `{F : FloatParser}.

Lemma build_inv (hot_limit all_limit : nat) (rows : list (gmap string value))
    (hot_cities all_cities : list (gmap string value)) :
  build hot_limit all_limit rows = Ok (hot_cities, all_cities) ->
  exists cities sorted,
    for_each read_row rows [] = Ok cities
    /\ sort_by_key sort_key cities = Ok sorted
    /\ hot_cities = take hot_limit sorted
    /\ all_cities = take all_limit sorted.
Proof.
  unfold build. intros H.
  apply bind_Ok in H as (cities & Hcities & H).
  apply bind_Ok in H as (sorted & Hsorted & [= <- <-]).
  by exists cities, sorted.
Qed.

Lemma sorted_by_key_take {A : Type} (key : A -> result str) (n : nat)
    (l : list A) :
  sorted_by_key key l -> sorted_by_key key (take n l).
Proof.
  intros Hl i a b Ha Hb.
  apply lookup_take_Some in Ha as [Ha _]. apply lookup_take_Some in Hb as [Hb _].
  by apply (Hl i).
Qed.

End Builder.

(** C2: in both lists that the builder returns, the hot one and the all one,
    the sort keys of adjacent records never decrease:
    [normalize(r[i-1].name) <= normalize(r[i].name)].  ([main] is [build] at
    the limits 500 and 48000.) *)
Theorem build_sorted `{U : UnicodeData} `{F : FloatParser}
    (hot_limit all_limit : nat) (rows : list (gmap string value))
    (hot_cities all_cities : list (gmap string value)) :
  generate_city_datasets.build hot_limit all_limit rows
    = Ok (hot_cities, all_cities) ->
  sorted_by_key generate_city_datasets.sort_key hot_cities
  /\ sorted_by_key generate_city_datasets.sort_key all_cities.
Proof.
  intros H. apply build_inv in H as (cities & sorted & _ & Hsorted & -> & ->).
  apply sort_by_key_spec in Hsorted as [_ Hsorted].
  split; by apply sorted_by_key_take.
Qed.

Lemma build_sorted_witness :
  let hot := [Sample.city "Aachen" Sample.f50_5 Sample.f7 250000;
              Sample.city "Bonn" Sample.f50_5 Sample.f7 330000] in
  let all := hot ++ [Sample.city "Köln" Sample.f50_5 Sample.f7 1000000] in
  generate_city_datasets.build (U := LatinExcerpt.latin_ucd)
    (F := AsciiFloat.ascii_float) 2 3 Sample.rows = Ok (hot, all)
  /\ sorted_by_key
       (generate_city_datasets.sort_key (U := LatinExcerpt.latin_ucd)) hot
  /\ sorted_by_key
       (generate_city_datasets.sort_key (U := LatinExcerpt.latin_ucd)) all.
Proof.
  intros hot all.
  assert (generate_city_datasets.build (U := LatinExcerpt.latin_ucd)
    (F := AsciiFloat.ascii_float) 2 3 Sample.rows = Ok (hot, all)) as Hrun
    by (vm_compute; reflexivity).
  split; [exact Hrun|].
  exact (build_sorted 2 3 Sample.rows hot all Hrun).
Defined.

(** C6: the two lists are prefixes of one sorted list, which is a
    permutation of the records that passed the coordinate filter; for
    [hot_limit <= all_limit] the hot list is the first [hot_limit] elements of
    the all list; a list whose limit is not below the number of records is
    the whole sorted list, with nothing added. *)
Theorem build_prefix `{U : UnicodeData} `{F : FloatParser}
    (hot_limit all_limit : nat) (rows : list (gmap string value))
    (hot_cities all_cities : list (gmap string value)) :
  generate_city_datasets.build hot_limit all_limit rows
    = Ok (hot_cities, all_cities) ->
  exists cities sorted,
    for_each generate_city_datasets.read_row rows [] = Ok cities
    /\ sort_by_key generate_city_datasets.sort_key cities = Ok sorted
    /\ sorted ≡ₚ cities
    /\ hot_cities = take hot_limit sorted
    /\ all_cities = take all_limit sorted
    /\ (hot_limit <= all_limit -> hot_cities = take hot_limit all_cities)%nat
    /\ (length cities <= hot_limit -> hot_cities = sorted)%nat
    /\ (length cities <= all_limit -> all_cities = sorted)%nat.
Proof.
  intros H. apply build_inv in H as (cities & sorted & Hcities & Hsorted & -> & ->).
  exists cities, sorted.
  pose proof (sort_by_key_spec _ _ _ Hsorted) as [Hperm _].
  split_and!; try done.
  - intros Hle. rewrite take_take. by rewrite Nat.min_l.
  - intros Hlen. apply take_ge. by rewrite Hperm.
  - intros Hlen. apply take_ge. by rewrite Hperm.
Qed.

Lemma build_prefix_witness :
  let hot := [Sample.city "Aachen" Sample.f50_5 Sample.f7 250000;
              Sample.city "Bonn" Sample.f50_5 Sample.f7 330000] in
  let all := hot ++ [Sample.city "Köln" Sample.f50_5 Sample.f7 1000000] in
  generate_city_datasets.build (U := LatinExcerpt.latin_ucd)
    (F := AsciiFloat.ascii_float) 2 7 Sample.rows = Ok (hot, all)
  /\ exists cities sorted,
    for_each (generate_city_datasets.read_row (F := AsciiFloat.ascii_float))
      Sample.rows [] = Ok cities
    /\ sort_by_key
         (generate_city_datasets.sort_key (U := LatinExcerpt.latin_ucd)) cities
       = Ok sorted
    /\ sorted ≡ₚ cities
    /\ hot = take 2 sorted
    /\ all = take 7 sorted
    /\ (2 <= 7 -> hot = take 2 all)%nat
    /\ (length cities <= 2 -> hot = sorted)%nat
    /\ (length cities <= 7 -> all = sorted)%nat.
Proof.
  intros hot all.
  assert (generate_city_datasets.build (U := LatinExcerpt.latin_ucd)
    (F := AsciiFloat.ascii_float) 2 7 Sample.rows = Ok (hot, all)) as Hrun
    by (vm_compute; reflexivity).
  split; [exact Hrun|].
  exact (build_prefix 2 7 Sample.rows hot all Hrun).
Defined.


(** ** The builder: reading a row *)

Lemma int_of_float_truncate (f : spec_float) :
  is_finite f = true -> int_of_float f = Ok (truncate f).
Proof.
  destruct f as [s|s| |s m e]; try done. intros _. simpl. f_equal.
  destruct (0 <=? e)%Z eqn:He.
  - apply Z.leb_le in He. rewrite Z.shiftl_mul_pow2 by done.
    destruct s; [|done]. by rewrite <- Z.mul_opp_l.
  - apply Z.leb_gt in He. rewrite Z.shiftl_div_pow2 by lia.
    assert (0 < 2 ^ (- e))%Z as Hpow by (apply Z.pow_pos_nonneg; lia).
    destruct s.
    + change (Z.neg m) with (- Z.pos m)%Z. rewrite Z.quot_opp_l by lia.
      f_equal. symmetry. apply Z.quot_div_nonneg; lia.
    + symmetry. apply Z.quot_div_nonneg; lia.
Qed.

Section Rows.
Import generate_city_datasets.
Context `{F : FloatParser}.

Lemma parse_population_absent (row : gmap string value) :
  row !! "population" = None -> parse_population row = Ok 0%Z.
Proof. intros H. unfold parse_population, getitem. by rewrite H. Qed.

Lemma parse_population_present (row : gmap string value) (v : value) :
  row !! "population" = Some v ->
  parse_population row =
  try_except (if truthy v then f ← py_float v; int_of_float f else Ok 0%Z)
    [ValueError; KeyError] (Ok 0%Z).
Proof. intros H. unfold parse_population, getitem. by rewrite H. Qed.

Lemma parse_coordinates_Ok (row : gmap string value) (lat lng : spec_float) :
  parse_coordinates row = Ok (lat, lng) <->
  parsed row "lat" lat /\ parsed row "lng" lng.
Proof.
  unfold parse_coordinates, parsed, getitem. split.
  - destruct (row !! "lat") as [v|]; [|done]. cbn [mbind result_bind].
    destruct (py_float v) as [f|] eqn:Hf; [|done]. cbn [mbind result_bind].
    destruct (row !! "lng") as [w|]; [|done]. cbn [mbind result_bind].
    destruct (py_float w) as [g|] eqn:Hg; [|done]. cbn [mbind result_bind].
    intros [= <- <-]. split; eexists; by split.
  - intros [(v & -> & Hv) (w & -> & Hw)]. cbn [mbind result_bind].
    rewrite Hv. cbn [mbind result_bind]. by rewrite Hw.
Qed.

(** The coordinates of a row whose two fields are texts, or missing, are
    read, or the reading ends in ValueError or KeyError. *)
Lemma parse_coordinates_textual (laws : FloatLaws F) (row : gmap string value) :
  textual row "lat" -> textual row "lng" ->
  (exists lat lng, parse_coordinates row = Ok (lat, lng))
  \/ ((parse_coordinates row = Raise ValueError
       \/ parse_coordinates row = Raise KeyError)
      /\ (unparseable row "lat" \/ unparseable row "lng")).
Proof.
  intros Hlat Hlng. unfold parse_coordinates, unparseable, getitem.
  destruct (row !! "lat") as [v|] eqn:Hv; [|right; split; [by right | by left; left]].
  destruct (Hlat v Hv) as [s ->]. cbn [mbind result_bind py_float].
  destruct (float_of_str s) as [lat|e] eqn:Hs; cbn [mbind result_bind].
  2:{ apply (float_of_str_exn _ laws) in Hs as Hs'. subst e.
      right. split; [by left|]. left. right. by exists (PStr s). }
  destruct (row !! "lng") as [w|] eqn:Hw; [|right; split; [by right | by right; left]].
  destruct (Hlng w Hw) as [t ->]. cbn [mbind result_bind py_float].
  destruct (float_of_str t) as [lng|e] eqn:Ht; cbn [mbind result_bind].
  2:{ apply (float_of_str_exn _ laws) in Ht as Ht'. subst e.
      right. split; [by left|]. right. right. by exists (PStr t). }
  left. by exists lat, lng.
Qed.

Lemma unparseable_not_parsed (row : gmap string value) (k : string) (f : spec_float) :
  unparseable row k -> parsed row k f -> False.
Proof.
  intros [Hk|(v & Hv & Hf)] (w & Hw & Hg); [congruence|].
  rewrite Hv in Hw. injection Hw as <-. congruence.
Qed.

Lemma read_row_kept (cities : list (gmap string value)) (row : gmap string value)
    (cities' : list (gmap string value)) (lat lng : spec_float) :
  parse_coordinates row = Ok (lat, lng) ->
  read_row cities row = Ok cities' ->
  exists c p, cities' = cities ++ [c] /\ parse_population row = Ok p
    /\ c !! "lat" = Some (PFloat lat) /\ c !! "lon" = Some (PFloat lng)
    /\ c !! "population" = Some (PInt p).
Proof.
  unfold read_row. intros Hc H. apply bind_Ok in H as (p & Hp & H).
  rewrite Hc in H.
  apply bind_Ok in H as (name & _ & H).
  apply bind_Ok in H as (country & _ & H).
  apply bind_Ok in H as (code & _ & [= <-]).
  eexists _, p. split_and!; try done.
Qed.

End Rows.

(** C5, as the code has it: a row whose population is read and whose [lat]
    and [lng] are texts, or missing, is left out exactly when [float] rejects
    one of the two or one is missing; the list is then returned unchanged and
    nothing is raised.  A row that is kept has the two doubles that [float]
    returned, which need not be finite. *)
Theorem read_row_excludes `{F : FloatParser} (laws : FloatLaws F)
    (cities : list (gmap string value)) (row : gmap string value) (p : Z) :
  generate_city_datasets.parse_population row = Ok p ->
  textual row "lat" -> textual row "lng" ->
  (generate_city_datasets.read_row cities row = Ok cities
   <-> unparseable row "lat" \/ unparseable row "lng")
  /\ (forall cities',
        generate_city_datasets.read_row cities row = Ok cities' ->
        cities' <> cities ->
        exists c lat lng,
          cities' = cities ++ [c]
          /\ parsed row "lat" lat /\ parsed row "lng" lng
          /\ c !! "lat" = Some (PFloat lat) /\ c !! "lon" = Some (PFloat lng)).
Proof.
  intros Hp Hlat Hlng.
  destruct (parse_coordinates_textual laws row Hlat Hlng)
    as [(lat & lng & Hc)|[Hraise Hun]].
  - pose proof (proj1 (parse_coordinates_Ok row lat lng) Hc) as [Hplat Hplng].
    split; [split|].
    + intros H. apply (read_row_kept _ _ _ _ _ Hc) in H as (c & _ & H & _).
      apply (f_equal length) in H. rewrite length_app in H. simpl in H. lia.
    + intros [H|H]; exfalso; eauto using unparseable_not_parsed.
    + intros cities' H _.
      apply (read_row_kept _ _ _ _ _ Hc) in H as (c & _ & -> & _ & H1 & H2 & _).
      by exists c, lat, lng.
  - assert (generate_city_datasets.read_row cities row = Ok cities) as Hskip.
    { unfold generate_city_datasets.read_row. rewrite Hp.
      cbn [mbind result_bind]. by destruct Hraise as [-> | ->]. }
    split; [by split|].
    intros cities' H Hne. rewrite Hskip in H. by injection H as <-.
Qed.

Lemma read_row_excludes_witness :
  let row := Sample.row "Atlantis" "unknown" "7" "1" in
  (generate_city_datasets.read_row (F := AsciiFloat.ascii_float) [] row = Ok []
   <-> unparseable (F := AsciiFloat.ascii_float) row "lat"
       \/ unparseable (F := AsciiFloat.ascii_float) row "lng")
  /\ (forall cities',
        generate_city_datasets.read_row (F := AsciiFloat.ascii_float) [] row
          = Ok cities' ->
        cities' <> [] ->
        exists c lat lng,
          cities' = [] ++ [c]
          /\ parsed (F := AsciiFloat.ascii_float) row "lat" lat
          /\ parsed (F := AsciiFloat.ascii_float) row "lng" lng
          /\ c !! "lat" = Some (PFloat lat) /\ c !! "lon" = Some (PFloat lng)).
Proof.
  intros row.
  apply (read_row_excludes ascii_float_laws [] row 1).
  - vm_compute. reflexivity.
  - intros v Hv. vm_compute in Hv. injection Hv as <-. by eexists.
  - intros v Hv. vm_compute in Hv. injection Hv as <-. by eexists.
Defined.

(** C5 as stated fails: a row whose [lat] is the text "nan" is kept, and
    its latitude is not a finite number. *)
Lemma read_row_keeps_nan :
  let row := Sample.row "Null Island" "nan" "7" "1" in
  let c := Sample.city "Null Island" S754_nan Sample.f7 1 in
  generate_city_datasets.read_row (F := AsciiFloat.ascii_float) [] row = Ok [c]
  /\ c !! "lat" = Some (PFloat S754_nan)
  /\ is_finite S754_nan = false.
Proof. vm_compute. repeat split. Qed.

(** C9, as the code has it: the population is 0 when the row has no such
    field, when the field is empty or [None], when [float] rejects it by
    ValueError and when it is a NaN; for a finite value it is the value
    rounded towards zero, whatever its sign; none of these cases raises, and
    a row that is kept stores that integer. *)
Theorem parse_population_default `{F : FloatParser} (row : gmap string value) :
  (row !! "population" = None ->
   generate_city_datasets.parse_population row = Ok 0%Z)
  /\ (forall v, row !! "population" = Some v ->
      (truthy v = false
       \/ (truthy v = true /\ py_float v = Raise ValueError)
       \/ (truthy v = true /\ py_float v = Ok S754_nan)) ->
      generate_city_datasets.parse_population row = Ok 0%Z)
  /\ (forall v f, row !! "population" = Some v -> truthy v = true ->
      py_float v = Ok f -> is_finite f = true ->
      generate_city_datasets.parse_population row = Ok (truncate f))
  /\ (forall cities cities',
      generate_city_datasets.read_row cities row = Ok cities' ->
      cities' <> cities ->
      exists c p, cities' = cities ++ [c]
        /\ generate_city_datasets.parse_population row = Ok p
        /\ c !! "population" = Some (PInt p)).
Proof.
  split_and!.
  - apply parse_population_absent.
  - intros v Hv Hcase. rewrite (parse_population_present _ _ Hv).
    destruct Hcase as [->|[[-> ->]|[-> ->]]]; done.
  - intros v f Hv Ht Hf Hfin. rewrite (parse_population_present _ _ Hv).
    rewrite Ht, Hf. cbn [mbind result_bind].
    by rewrite (int_of_float_truncate f Hfin).
  - intros cities cities' H Hne.
    destruct (generate_city_datasets.parse_coordinates row) as [[lat lng]|e] eqn:Hc.
    + apply (read_row_kept _ _ _ _ _ Hc) in H as (c & p & -> & Hp & _ & _ & Hpop).
      by exists c, p.
    + unfold generate_city_datasets.read_row in H.
      apply bind_Ok in H as (p & _ & H). rewrite Hc in H.
      destruct (bool_decide (e ∈ [ValueError; KeyError])); [|done].
      by injection H as <-.
Qed.

Lemma parse_population_default_witness :
  generate_city_datasets.parse_population (F := AsciiFloat.ascii_float)
    (Sample.row "Bonn" "50.5" "7" "330000.9") = Ok 330000%Z
  /\ generate_city_datasets.parse_population (F := AsciiFloat.ascii_float)
       (Sample.row "Bonn" "50.5" "7" "many") = Ok 0%Z.
Proof.
  split.
  - apply (proj1 (proj2 (proj2 (parse_population_default
             (Sample.row "Bonn" "50.5" "7" "330000.9"))))
           (PStr (lit "330000.9"))
           (S754_finite false 5669372292602266 (-34)));
      vm_compute; reflexivity.
  - apply (proj1 (proj2 (parse_population_default
             (Sample.row "Bonn" "50.5" "7" "many"))) (PStr (lit "many")));
      [vm_compute; reflexivity|].
    right. left. split; vm_compute; reflexivity.
Defined.

(** C9 as stated fails: the population "-5" is stored as the negative
    integer -5. *)
Lemma read_row_negative_population :
  let row := Sample.row "Bonn" "50.5" "7" "-5" in
  let c := Sample.city "Bonn" Sample.f50_5 Sample.f7 (-5) in
  generate_city_datasets.read_row (F := AsciiFloat.ascii_float) [] row = Ok [c]
  /\ c !! "population" = Some (PInt (-5))
  /\ (-5 < 0)%Z.
Proof. vm_compute. repeat split. Qed.


(** ** The validator: the checking loop *)

Lemma last_named_snoc (before : list (gmap string value)) (c : gmap string value) :
  last_named (before ++ [c]) =
  if decide (is_Some (c !! "name")) then Some c else last_named before.
Proof.
  unfold last_named. rewrite filter_app, (filter_singleton _ c []).
  destruct (decide (is_Some (c !! "name"))).
  - apply last_snoc.
  - by rewrite app_nil_r.
Qed.

Section Validator.
Import validate_city_sorting.
Context `{U : UnicodeData}.

Lemma reported_snoc (before : list (gmap string value)) (c : gmap string value)
    (e : error) :
  reported (before ++ [c]) e <->
  reported before e \/ reported_at before c (length before) e.
Proof.
  unfold reported. split.
  - intros (j & c' & Hj & He).
    apply lookup_snoc_Some in Hj as [[Hlt Hj]|[-> ->]].
    + left. exists j, c'. rewrite take_app_le in He by lia. done.
    + right. by rewrite take_app_length in He.
  - intros [(j & c' & Hj & He)|He].
    + exists j, c'. pose proof (lookup_lt_Some _ _ _ Hj) as Hlt.
      rewrite lookup_app_l by done. rewrite take_app_le by lia. done.
    + exists (length before), c. rewrite take_app_length.
      split; [|done]. by rewrite list_lookup_middle.
Qed.

(** One iteration on a record without a name. *)
Lemma check_city_nameless (st : check_state) (i : nat) (city : gmap string value) :
  city !! "name" = None ->
  check_city st i city =
  Ok {| errors := errors st ++ [MissingName i];
        prev_normalized := prev_normalized st;
        prev_city := prev_city st |}.
Proof. intros H. unfold check_city. by rewrite H. Qed.

(** One iteration on a record with a name, after the records [before]. *)
Lemma check_city_named (st st' : check_state) (before : list (gmap string value))
    (city : gmap string value) (n : value) :
  city !! "name" = Some n ->
  tracks st before ->
  check_city st (length before) city = Ok st' ->
  exists k,
    normalize_city_name n = Ok k
    /\ prev_normalized st' = Some k /\ prev_city st' = Some city
    /\ exists new, errors st' = errors st ++ new
        /\ forall e, e ∈ new <-> reported_at before city (length before) e.
Proof.
  intros Hn Htr. unfold check_city. rewrite Hn. intros H.
  apply bind_Ok in H as (k & Hk & H).
  apply bind_Ok in H as (errors' & Herr & [= <-]). cbn.
  exists k. split_and!; try done.
  unfold tracks in Htr. unfold reported_at.
  destruct (last_named before) as [p|] eqn:Hlast.
  - destruct Htr as (Hpc & pn & pk & Hpn & Hpk & Hprev).
    rewrite Hprev, Hpc in Herr.
    destruct (str_lt k pk) eqn:Hlt.
    + unfold getitem in Herr. rewrite Hpn in Herr. injection Herr as <-.
      eexists. split; [done|]. intros e. rewrite list_elem_of_singleton. split.
      * intros ->. right. by exists n, k, p, pn, pk.
      * intros [[? _]|(n' & k' & p' & pn' & pk' & ? & ? & ? & ? & ? & ? & ->)];
          [congruence|].
        congruence.
    + injection Herr as <-. exists []. rewrite app_nil_r. split; [done|].
      intros e. rewrite elem_of_nil. split; [done|].
      intros [[? _]|(n' & k' & p' & pn' & pk' & ? & ? & ? & ? & ? & ? & ->)];
        congruence.
  - destruct Htr as [Hprev _]. rewrite Hprev in Herr. injection Herr as <-.
    exists []. rewrite app_nil_r. split; [done|].
    intros e. rewrite elem_of_nil. split; [done|].
    intros [[? _]|(n' & k' & p' & pn' & pk' & ? & ? & ? & ? & ? & ? & ->)];
      congruence.
Qed.

(** The loop, when it returns: the list [errors] holds the defects of the
    dataset and nothing else, every name has a key, and the loop variables
    track the closest record with a name. *)
Lemma check_loop_spec (cities : list (gmap string value)) (st : check_state) :
  for_enumerate check_city 0 cities initial = Ok st ->
  (forall e, e ∈ errors st <-> reported cities e)
  /\ tracks st cities
  /\ (forall j c n, cities !! j = Some c -> c !! "name" = Some n ->
        exists k, normalize_city_name n = Ok k).
Proof.
  revert st. induction cities as [|c before IH] using rev_ind; intros st.
  - intros [= <-]. split_and!.
    + intros e. cbn. rewrite elem_of_nil. split; [done|]. by intros (j & c & ? & _).
    + done.
    + by intros j c n ?.
  - rewrite for_enumerate_app. intros H.
    apply bind_Ok in H as (st1 & Hst1 & H).
    destruct (IH st1 Hst1) as (Herr & Htr & Hkeys). cbn in H.
    apply bind_Ok in H as (st2 & Hstep & [= <-]).
    destruct (c !! "name") as [n|] eqn:Hn.
    + destruct (check_city_named _ _ _ _ _ Hn Htr Hstep)
        as (k & Hk & Hprev & Hcity & new & Hnew & Hrep).
      split_and!.
      * intros e. rewrite reported_snoc, Hnew, elem_of_app, Herr, Hrep. done.
      * unfold tracks. rewrite last_named_snoc, decide_True by by rewrite Hn.
        split; [done|]. by exists n, k.
      * intros j c' n' Hj Hn'.
        apply lookup_snoc_Some in Hj as [[_ Hj]|[_ <-]]; [by eapply Hkeys|].
        rewrite Hn in Hn'. injection Hn' as <-. by exists k.
    + rewrite (check_city_nameless _ _ _ Hn) in Hstep. injection Hstep as <-.
      split_and!.
      * intros e. rewrite reported_snoc. cbn. rewrite elem_of_app, Herr.
        rewrite list_elem_of_singleton. unfold reported_at. rewrite Hn.
        split; (intros [?|?]; [by left|right]).
        -- by left.
        -- destruct H as [[_ ->]|(? & ? & ? & ? & ? & ? & _)]; done.
      * unfold tracks in *. rewrite last_named_snoc, decide_False; [done|].
        rewrite Hn. by intros [? ?].
      * intros j c' n' Hj Hn'.
        apply lookup_snoc_Some in Hj as [[_ Hj]|[_ <-]]; [by eapply Hkeys|].
        congruence.
Qed.

End Validator.

(** ** The validator: the result *)

Lemma filter_all {A : Type} (P : A -> Prop) `{!forall x, Decision (P x)}
    (l : list A) :
  Forall P l -> filter P l = l.
Proof.
  induction 1 as [|x l Hx Hl IH]; [done|].
  by rewrite filter_cons_True, IH.
Qed.

(** In a dataset whose records all have a name, the closest record with a
    name before index [S i] is the record at index [i]. *)
Lemma last_named_all (cities : list (gmap string value)) (j : nat)
    (c p : gmap string value) :
  (forall c, c ∈ cities -> is_Some (c !! "name")) ->
  cities !! j = Some c -> last_named (take j cities) = Some p ->
  exists i, j = S i /\ cities !! i = Some p.
Proof.
  intros Hall Hj. unfold last_named.
  rewrite filter_all.
  2:{ apply Forall_take, Forall_forall, Hall. }
  rewrite last_lookup, length_take.
  pose proof (lookup_lt_Some _ _ _ Hj) as Hlt.
  rewrite Nat.min_l by lia.
  destruct j as [|i]; [done|]. simpl.
  rewrite lookup_take_lt by lia. intros Hp. by exists i.
Qed.

Section Result.
Import validate_city_sorting.
Context `{U : UnicodeData}.

Lemma city_key_named (c : gmap string value) (n : value) :
  c !! "name" = Some n -> city_key c = normalize_city_name n.
Proof. intros H. unfold city_key, getitem. by rewrite H. Qed.

Lemma validate_sorting_inv (cities : list (gmap string value))
    (r : bool * option error_message * option stats) :
  cities <> [] ->
  validate_sorting (CitiesArray cities) = Ok r ->
  exists st,
    for_enumerate check_city 0 cities initial = Ok st
    /\ ((errors st <> [] /\ r = (false, Some (Errors (errors st)), None))
        \/ (errors st = []
            /\ exists c0 cl f l,
                head cities = Some c0 /\ c0 !! "name" = Some f
                /\ list.last cities = Some cl /\ cl !! "name" = Some l
                /\ r = (true, None,
                        Some {| total := length cities; first := f; last := l |}))).
Proof.
  intros Hne. unfold validate_sorting.
  rewrite bool_decide_eq_false_2 by by destruct cities.
  intros H. apply bind_Ok in H as (st & Hst & H). exists st. split; [done|].
  destruct (decide (errors st = [])) as [Hnil|Hnil].
  - right. split; [done|].
    rewrite bool_decide_eq_true_2 in H by done. cbn [negb] in H.
    apply bind_Ok in H as (f & Hf & H). apply bind_Ok in H as (l & Hl & [= <-]).
    unfold name_at, getitem in Hf, Hl.
    destruct (head cities) as [c0|]; [|done].
    destruct (list.last cities) as [cl|]; [|done].
    destruct (c0 !! "name") as [f'|] eqn:Hf'; [|done].
    destruct (cl !! "name") as [l'|] eqn:Hl'; [|done].
    injection Hf as <-. injection Hl as <-. by exists c0, cl, f', l'.
  - left. split; [done|].
    rewrite bool_decide_eq_false_2 in H by done. by injection H as <-.
Qed.

(** A dataset without defects: every record has a name and the keys never
    decrease. *)
Lemma no_defect_iff (cities : list (gmap string value)) (st : check_state) :
  for_enumerate check_city 0 cities initial = Ok st ->
  errors st = [] <->
  (forall c, c ∈ cities -> is_Some (c !! "name")) /\ sorted_by_key city_key cities.
Proof.
  intros Hrun. destruct (check_loop_spec _ _ Hrun) as (Herr & _ & Hkeys). split.
  - intros Hnil. rewrite Hnil in Herr.
    assert (forall e, reported cities e -> False) as Hnone.
    { intros e He. apply Herr in He. by apply elem_of_nil in He. }
    assert (forall c, c ∈ cities -> is_Some (c !! "name")) as Hall.
    { intros c Hc. apply list_elem_of_lookup in Hc as [j Hj].
      destruct (c !! "name") eqn:Hn; [done|]. exfalso.
      apply (Hnone (MissingName j)). exists j, c. split; [done|]. by left. }
    split; [done|]. intros i a b Ha Hb.
    destruct (Hall a) as [na Hna]; [by eapply list_elem_of_lookup_2|].
    destruct (Hall b) as [nb Hnb]; [by eapply list_elem_of_lookup_2|].
    destruct (Hkeys _ _ _ Ha Hna) as [ka Hka].
    destruct (Hkeys _ _ _ Hb Hnb) as [kb Hkb].
    exists ka, kb. rewrite (city_key_named _ _ Hna), (city_key_named _ _ Hnb).
    split_and!; try done. unfold str_le.
    destruct (str_lt kb ka) eqn:Hlt; [|done]. exfalso.
    apply (Hnone (SortingViolation (S i) na ka nb kb)).
    exists (S i), b. split; [done|]. right. exists nb, kb, a, na, ka.
    split_and!; try done.
    rewrite (take_S_r _ _ _ Ha), last_named_snoc, decide_True; [done|].
    by rewrite Hna.
  - intros [Hall Hsorted].
    destruct (errors st) as [|e es] eqn:Hes; [done|]. exfalso.
    assert (reported cities e) as (j & c & Hj & He)
      by (apply Herr; by left).
    destruct He as [[Hn _]|(n & k & p & pn & pk & Hn & Hk & Hp & Hpn & Hpk & Hlt & _)].
    + destruct (Hall c) as [? ?]; [by eapply list_elem_of_lookup_2|congruence].
    + destruct (last_named_all _ _ _ _ Hall Hj Hp) as (i & -> & Hi).
      destruct (Hsorted i p c Hi Hj) as (ka & kb & Hka & Hkb & Hle).
      rewrite (city_key_named _ _ Hpn) in Hka.
      rewrite (city_key_named _ _ Hn) in Hkb.
      unfold str_le in Hle.
      assert (ka = pk) as -> by congruence. assert (kb = k) as -> by congruence.
      by rewrite Hlt in Hle.
Qed.

End Result.

(** C3, as the code has it: an empty dataset is a failure of its own, one
    top-level error and no per-record check.  A record without a name makes
    the dataset invalid too, but it is reported as an entry of the list
    [errors], the list that also holds the ordering violations: the result
    carries that list, which holds the defects of the whole dataset. *)
Theorem validate_sorting_structural `{U : UnicodeData} :
  validate_city_sorting.validate_sorting (validate_city_sorting.CitiesArray [])
    = Ok (false, Some validate_city_sorting.EmptyCities, None)
  /\ forall cities r i c,
      validate_city_sorting.validate_sorting
        (validate_city_sorting.CitiesArray cities) = Ok r ->
      cities !! i = Some c -> c !! "name" = None ->
      exists es,
        r = (false, Some (validate_city_sorting.Errors es), None)
        /\ validate_city_sorting.MissingName i ∈ es
        /\ forall e, e ∈ es <-> reported cities e.
Proof.
  split; [done|]. intros cities r i c Hr Hi Hn.
  assert (cities <> []) as Hne by (intros ->; done).
  destruct (validate_sorting_inv _ _ Hne Hr) as (st & Hrun & Hcases).
  destruct (check_loop_spec _ _ Hrun) as (Herr & _ & _).
  assert (validate_city_sorting.MissingName i ∈ validate_city_sorting.errors st)
    as Hin.
  { apply Herr. exists i, c. split; [done|]. by left. }
  destruct Hcases as [[_ ->]|[Hnil _]].
  - by eexists.
  - rewrite Hnil in Hin. by apply elem_of_nil in Hin.
Qed.

Lemma validate_sorting_structural_witness :
  let cities := [Sample.named "b"; ∅; Sample.named "a"] in
  exists es,
    validate_city_sorting.validate_sorting (U := LatinExcerpt.latin_ucd)
      (validate_city_sorting.CitiesArray cities)
    = Ok (false, Some (validate_city_sorting.Errors es), None)
    /\ validate_city_sorting.MissingName 1 ∈ es
    /\ forall e, e ∈ es <-> reported (U := LatinExcerpt.latin_ucd) cities e.
Proof.
  intros cities.
  destruct (proj2 (validate_sorting_structural (U := LatinExcerpt.latin_ucd))
              cities _ 1%nat ∅ eq_refl eq_refl eq_refl) as (es & Hr & Hes).
  exists es. split; [|done]. by rewrite <- Hr.
Defined.

(** C3 as stated fails: the record without a name at index 1 is an entry of
    the list that also holds the ordering violation of index 2. *)
Lemma missing_name_in_errors :
  validate_city_sorting.validate_sorting (U := LatinExcerpt.latin_ucd)
    (validate_city_sorting.CitiesArray [Sample.named "b"; ∅; Sample.named "a"])
  = Ok (false,
        Some (validate_city_sorting.Errors
          [validate_city_sorting.MissingName 1;
           validate_city_sorting.SortingViolation 2
             (PStr (lit "b")) (lit "b") (PStr (lit "a")) (lit "a")]),
        None).
Proof. vm_compute. reflexivity. Qed.

(** C4, as the code has it: the result is valid exactly when the dataset is
    not empty, every record has a name and the keys never decrease; it then
    carries the statistics: the number of records and the names of the first
    and of the last one.  An invalid result carries no statistics; for a
    dataset that is not empty it carries the list of the defects of the whole
    dataset. *)
Theorem validate_sorting_result `{U : UnicodeData}
    (cities : list (gmap string value)) (ok : bool)
    (msg : option validate_city_sorting.error_message)
    (st : option validate_city_sorting.stats) :
  validate_city_sorting.validate_sorting
    (validate_city_sorting.CitiesArray cities) = Ok (ok, msg, st) ->
  (ok = true <->
     cities <> []
     /\ (forall c, c ∈ cities -> is_Some (c !! "name"))
     /\ sorted_by_key city_key cities)
  /\ (ok = true ->
      msg = None
      /\ exists c0 cl f l,
          head cities = Some c0 /\ c0 !! "name" = Some f
          /\ list.last cities = Some cl /\ cl !! "name" = Some l
          /\ st = Some {| validate_city_sorting.total := length cities;
                          validate_city_sorting.first := f;
                          validate_city_sorting.last := l |})
  /\ (ok = false ->
      st = None
      /\ (cities = [] -> msg = Some validate_city_sorting.EmptyCities)
      /\ (cities <> [] ->
          exists es, msg = Some (validate_city_sorting.Errors es) /\ es <> []
                     /\ forall e, e ∈ es <-> reported cities e)).
Proof.
  intros Hr. destruct (decide (cities = [])) as [->|Hne].
  { injection Hr as <- <- <-. split_and!; try done.
    split; [done|]. by intros (? & _). }
  destruct (validate_sorting_inv _ _ Hne Hr) as (s & Hrun & Hcases).
  pose proof (no_defect_iff _ _ Hrun) as Hiff.
  destruct (check_loop_spec _ _ Hrun) as (Herr & _ & _).
  destruct Hcases as [[Hes [= -> -> ->]]|[Hes (c0 & cl & f & l & ? & ? & ? & ? & [= -> -> ->])]].
  - split_and!; try done.
    + split; [done|]. intros (_ & Hall & Hsorted).
      destruct Hes. apply Hiff. by split.
    + intros _. split_and!; try done. intros _. by eexists.
  - split_and!; try done.
    + split; [|done]. intros _. split; [done|]. by apply Hiff.
    + intros _. split; [done|]. by exists c0, cl, f, l.
Qed.

Lemma validate_sorting_result_witness :
  let cities := [Sample.named "Aachen"; Sample.named "Köln"] in
  (true = true <->
     cities <> []
     /\ (forall c, c ∈ cities -> is_Some (c !! "name"))
     /\ sorted_by_key (city_key (U := LatinExcerpt.latin_ucd)) cities)
  /\ (true = true ->
      (None : option validate_city_sorting.error_message) = None
      /\ exists c0 cl f l,
          head cities = Some c0 /\ c0 !! "name" = Some f
          /\ list.last cities = Some cl /\ cl !! "name" = Some l
          /\ Some {| validate_city_sorting.total := 2;
                     validate_city_sorting.first := PStr (lit "Aachen");
                     validate_city_sorting.last := PStr (lit "Köln") |}
             = Some {| validate_city_sorting.total := length cities;
                       validate_city_sorting.first := f;
                       validate_city_sorting.last := l |})
  /\ (true = false ->
      Some {| validate_city_sorting.total := 2;
              validate_city_sorting.first := PStr (lit "Aachen");
              validate_city_sorting.last := PStr (lit "Köln") |} = None
      /\ (cities = [] -> None = Some validate_city_sorting.EmptyCities)
      /\ (cities <> [] ->
          exists es, None = Some (validate_city_sorting.Errors es) /\ es <> []
                     /\ forall e, e ∈ es
                          <-> reported (U := LatinExcerpt.latin_ucd) cities e)).
Proof.
  intros cities.
  apply (validate_sorting_result (U := LatinExcerpt.latin_ucd) cities).
  vm_compute. reflexivity.
Defined.

(** C4 as stated fails: the result for a dataset with an ordering violation
    carries the violation list but no statistics. *)
Lemma invalid_result_without_stats :
  validate_city_sorting.validate_sorting (U := LatinExcerpt.latin_ucd)
    (validate_city_sorting.CitiesArray [Sample.named "b"; Sample.named "a"])
  = Ok (false,
        Some (validate_city_sorting.Errors
          [validate_city_sorting.SortingViolation 1
             (PStr (lit "b")) (lit "b") (PStr (lit "a")) (lit "a")]),
        None).
Proof. vm_compute. reflexivity. Qed.

(** C10: an iteration on a record without a name adds the entry of the
    missing name and leaves [prev_normalized] and [prev_city] as they are,
    whatever the database; so, in a run of the loop, the record behind a
    record without a name at index [i] is reported as an ordering violation
    exactly when its key is smaller than the key of the closest record with
    a name before index [i]: it is never compared with the record at [i]. *)
Theorem nameless_record_skipped `{U : UnicodeData} :
  (forall st i city,
     city !! "name" = None ->
     validate_city_sorting.check_city st i city =
     Ok {| validate_city_sorting.errors :=
             validate_city_sorting.errors st ++ [validate_city_sorting.MissingName i];
           validate_city_sorting.prev_normalized :=
             validate_city_sorting.prev_normalized st;
           validate_city_sorting.prev_city := validate_city_sorting.prev_city st |})
  /\ (forall cities st i x y n k pn pk,
      for_enumerate validate_city_sorting.check_city 0 cities
        validate_city_sorting.initial = Ok st ->
      cities !! i = Some x -> x !! "name" = None ->
      cities !! S i = Some y -> y !! "name" = Some n ->
      validate_city_sorting.normalize_city_name n = Ok k ->
      validate_city_sorting.SortingViolation (S i) pn pk n k
        ∈ validate_city_sorting.errors st
      <-> exists p,
            last_named (take i cities) = Some p
            /\ p !! "name" = Some pn
            /\ validate_city_sorting.normalize_city_name pn = Ok pk
            /\ str_lt k pk = true).
Proof.
  split; [apply check_city_nameless|].
  intros cities st i x y n k pn pk Hrun Hx Hxn Hy Hyn Hk.
  destruct (check_loop_spec _ _ Hrun) as (Herr & _ & _). rewrite Herr.
  assert (last_named (take (S i) cities) = last_named (take i cities)) as Hlast.
  { rewrite (take_S_r _ _ _ Hx), last_named_snoc, decide_False; [done|].
    rewrite Hxn. by intros [? ?]. }
  split.
  - intros (j & c & Hj & [[_ ?]|(n' & k' & p & pn' & pk' & Hn' & Hk' & Hp & Hpn & Hpk & Hlt & He)]);
      [done|].
    injection He as <- <- <- <- <-. rewrite Hlast in Hp. by exists p.
  - intros (p & Hp & Hpn & Hpk & Hlt). exists (S i), y. split; [done|].
    right. exists n, k, p, pn, pk. rewrite Hlast. by split_and!.
Qed.

Lemma nameless_record_skipped_witness :
  let cities := [Sample.named "b"; ∅; Sample.named "a"] in
  let violation :=
    validate_city_sorting.SortingViolation 2
      (PStr (lit "b")) (lit "b") (PStr (lit "a")) (lit "a") in
  let st :=
    {| validate_city_sorting.errors :=
         [validate_city_sorting.MissingName 1; violation];
       validate_city_sorting.prev_normalized := Some (lit "a");
       validate_city_sorting.prev_city := Some (Sample.named "a") |} in
  for_enumerate (validate_city_sorting.check_city (U := LatinExcerpt.latin_ucd))
    0 cities validate_city_sorting.initial = Ok st
  /\ (violation ∈ validate_city_sorting.errors st
      <-> exists p,
            last_named (take 1 cities) = Some p
            /\ p !! "name" = Some (PStr (lit "b"))
            /\ validate_city_sorting.normalize_city_name
                 (U := LatinExcerpt.latin_ucd) (PStr (lit "b")) = Ok (lit "b")
            /\ str_lt (lit "a") (lit "b") = true).
Proof.
  intros cities violation st.
  assert (for_enumerate
            (validate_city_sorting.check_city (U := LatinExcerpt.latin_ucd))
            0 cities validate_city_sorting.initial = Ok st) as Hrun
    by (vm_compute; reflexivity).
  split; [exact Hrun|].
  apply (proj2 (nameless_record_skipped (U := LatinExcerpt.latin_ucd))
           cities st 1%nat ∅ (Sample.named "a") (PStr (lit "a")) (lit "a")
           (PStr (lit "b")) (lit "b") Hrun);
    vm_compute; reflexivity.
Defined.

(** * Further properties *)

(** ** Normalization of Latin text *)

Section LatinText.
Import generate_city_datasets.
Context `{U : UnicodeData}.
Hypothesis laws : UnicodeLaws U.

Lemma transliteration_map_values (c : N) (t : str) :
  transliteration_map !! c = Some t -> Forall (fun x => x < 128) t.
Proof.
  intros H. apply elem_of_list_to_map_2 in H.
  match type of H with _ ∈ ?l =>
    let l' := eval vm_compute in l in change l with l' in H end.
  rewrite !elem_of_cons, elem_of_nil in H.
  repeat (destruct H as [H|H]; [injection H as _ ->; repeat constructor; lia|]).
  done.
Qed.

Lemma transliterated_ascii (s : str) :
  Forall (fun c => c < 128 \/ is_Some (transliteration_map !! c)) s ->
  Forall (fun x => x < 128) (transliterated s).
Proof.
  unfold transliterated. induction 1 as [|c s Hc Hs IH]; simpl; [done|].
  apply Forall_app. split; [|done].
  destruct (transliteration_map !! c) as [t|] eqn:Ht; simpl.
  - by eapply transliteration_map_values.
  - destruct Hc as [Hc|[? ?]]; [by repeat constructor|done].
Qed.

Lemma keep_char_ascii (normalized : list str) (c : N) :
  c < 128 ->
  keep_char normalized c =
  Ok (if allowed (to_lower_ascii c) then normalized ++ [[to_lower_ascii c]]
      else normalized).
Proof.
  intros Hc. unfold keep_char.
  rewrite (ascii_category _ laws c Hc), (ascii_lower _ laws c Hc).
  fold (to_lower_ascii c). cbn [ord mbind result_bind]. unfold allowed.
  destruct ((ch "a" <=? to_lower_ascii c) && (to_lower_ascii c <=? ch "z"));
    [done|].
  destruct ((ch "0" <=? to_lower_ascii c) && (to_lower_ascii c <=? ch "9"));
    [done|].
  cbn [orb].
  by destruct (bool_decide ([to_lower_ascii c] ∈ [lit " "; lit "-"; lit "_"])).
Qed.

Lemma for_each_keep_ascii (t : str) (acc : list str) :
  Forall (fun c => c < 128) t ->
  for_each keep_char t acc =
  Ok (acc ++ map (fun c => [c])
        (filter (fun c => allowed c = true) (map to_lower_ascii t))).
Proof.
  intros Ht. revert acc.
  induction Ht as [|c t Hc Ht IH]; intros acc; cbn [for_each map].
  - by rewrite app_nil_r.
  - rewrite (keep_char_ascii _ _ Hc). cbn [mbind result_bind].
    rewrite IH, filter_cons.
    destruct (allowed (to_lower_ascii c)) eqn:Ha.
    + rewrite decide_True by done. cbn [map]. by rewrite <- app_assoc.
    + by rewrite decide_False by done.
Qed.

End LatinText.

(** The sort key of a text of ASCII characters and characters of the
    transliteration table: the transliterated text in lower case, without the
    characters that are no letter, digit, space, hyphen or underscore. *)
Theorem normalize_latin_text `{U : UnicodeData} (laws : UnicodeLaws U) (s : str) :
  Forall (fun c => c < 128
                   \/ is_Some (generate_city_datasets.transliteration_map !! c)) s ->
  generate_city_datasets.normalize_city_name (PStr s) =
  Ok (filter (fun c => allowed c = true) (map to_lower_ascii (transliterated s))).
Proof.
  intros Hs. unfold generate_city_datasets.normalize_city_name.
  destruct (negb (truthy (PStr s))) eqn:Hempty.
  { destruct s; [done|discriminate]. }
  rewrite foldl_transliterate. cbn [app]. unfold join.
  rewrite <- flat_map_concat_map. fold (transliterated s).
  rewrite (normalize_NFD_ascii laws) by by apply transliterated_ascii.
  rewrite (for_each_keep_ascii laws) by by apply transliterated_ascii.
  cbn [mbind result_bind app]. by rewrite concat_singletons.
Qed.

Lemma normalize_latin_text_witness :
  generate_city_datasets.normalize_city_name (U := LatinExcerpt.latin_ucd)
    (PStr (lit "Große Straße 7!")) =
  Ok (filter (fun c => allowed c = true)
        (map to_lower_ascii (transliterated (lit "Große Straße 7!")))).
Proof.
  apply (normalize_latin_text latin_ucd_laws).
  let l := eval vm_compute in (lit "Große Straße 7!") in
    change (lit "Große Straße 7!") with l.
  repeat (apply List.Forall_cons;
    [(left; reflexivity) || (right; eexists; vm_compute; reflexivity)|]).
  apply List.Forall_nil.
Defined.

(** A sort key holds letters [a-z], digits, spaces, hyphens and underscores
    only, whatever the name and whatever the Unicode database. *)
Theorem sort_key_alphabet `{U : UnicodeData} (name : value) (t : str) :
  generate_city_datasets.normalize_city_name name = Ok t ->
  Forall (fun c => allowed c = true) t.
Proof. apply normalize_city_name_allowed. Qed.

Lemma sort_key_alphabet_witness :
  Forall (fun c => allowed c = true) (lit "da nang").
Proof.
  apply (sort_key_alphabet (U := LatinExcerpt.latin_ucd) (PStr (lit "Đà Nẵng"))).
  vm_compute. reflexivity.
Defined.


(** ** The builder: the records it returns *)

Section BuilderRecords.
Import generate_city_datasets.
Context `{U : UnicodeData} `{F : FloatParser}.

Lemma read_row_cases (cities : list (gmap string value)) (row : gmap string value)
    (cities' : list (gmap string value)) :
  read_row cities row = Ok cities' ->
  cities' = cities
  \/ exists c lat lng p,
      cities' = cities ++ [c]
      /\ parsed row "lat" lat /\ parsed row "lng" lng
      /\ parse_population row = Ok p
      /\ city_of_row row lat lng p c.
Proof.
  unfold read_row. intros H. apply bind_Ok in H as (p & Hp & H).
  destruct (parse_coordinates row) as [[lat lng]|e] eqn:Hc.
  - right. apply parse_coordinates_Ok in Hc as [Hlat Hlng].
    apply bind_Ok in H as (name & Hname & H).
    apply bind_Ok in H as (country & Hcountry & H).
    apply bind_Ok in H as (code & Hcode & [= <-]).
    unfold getitem in Hname, Hcountry, Hcode.
    destruct (row !! "city") as [name'|] eqn:H1; [|done].
    destruct (row !! "country") as [country'|] eqn:H2; [|done].
    destruct (row !! "iso2") as [code'|] eqn:H3; [|done].
    injection Hname as ->. injection Hcountry as ->. injection Hcode as ->.
    eexists _, lat, lng, p. split_and!; try done.
    by exists name, country, code.
  - left. destruct (bool_decide (e ∈ [ValueError; KeyError])); [|done].
    by injection H as <-.
Qed.

Lemma for_each_read_row (rows : list (gmap string value))
    (acc cities : list (gmap string value)) :
  for_each read_row rows acc = Ok cities ->
  exists new,
    cities = acc ++ new
    /\ (length new <= length rows)%nat
    /\ Forall (fun c => exists row lat lng p,
                  row ∈ rows /\ parsed row "lat" lat /\ parsed row "lng" lng
                  /\ parse_population row = Ok p /\ city_of_row row lat lng p c)
         new.
Proof.
  revert acc. induction rows as [|row rows IH]; intros acc; cbn [for_each].
  - intros [= <-]. exists []. rewrite app_nil_r. by split_and!.
  - intros H. apply bind_Ok in H as (acc' & Hrow & Hrest).
    apply IH in Hrest as (new & -> & Hlen & Hnew).
    assert (Forall (fun c => exists row0 lat lng p,
                  row0 ∈ row :: rows /\ parsed row0 "lat" lat
                  /\ parsed row0 "lng" lng
                  /\ parse_population row0 = Ok p
                  /\ city_of_row row0 lat lng p c) new) as Hnew'.
    { eapply Forall_impl; [exact Hnew|].
      intros c (r & lat & lng & p & Hr & ?). exists r, lat, lng, p.
      split; [by right|done]. }
    apply read_row_cases in Hrow as [->|(c & lat & lng & p & -> & ? & ? & ? & ?)].
    + exists new. split_and!; try done. simpl. lia.
    + exists (c :: new). rewrite <- app_assoc. split_and!; try done.
      * simpl. lia.
      * constructor; [|done]. exists row, lat, lng, p. split; [by left|done].
Qed.

Lemma filter_keyed (key : gmap string value -> result str) (k : str)
    (keyed : list (str * gmap string value)) :
  Forall (fun p => key p.2 = Ok p.1) keyed ->
  (filter (fun p => p.1 = k) keyed).*2 = filter (fun x => key x = Ok k) (keyed.*2).
Proof.
  induction 1 as [|[k' x] keyed Hx Hl IH]; [done|].
  rewrite fmap_cons, !filter_cons. cbn [fst snd] in *.
  destruct (decide (k' = k)) as [->|Hk].
  - rewrite decide_True by done. by rewrite fmap_cons, IH.
  - rewrite decide_False by congruence. done.
Qed.

Lemma sort_by_key_stable (key : gmap string value -> result str) (k : str)
    (l sorted : list (gmap string value)) :
  sort_by_key key l = Ok sorted ->
  filter (fun x => key x = Ok k) sorted = filter (fun x => key x = Ok k) l.
Proof.
  unfold sort_by_key. intros H.
  apply bind_Ok in H as (keyed & Hkeyed & [= <-]).
  apply keyed_spec in Hkeyed as [<- Hkeys].
  rewrite <- !filter_keyed; [|done|by rewrite stable_sort_Permutation].
  by rewrite stable_sort_stable.
Qed.

End BuilderRecords.

(** Every record of the two lists comes from a row of the input: it has the
    six fields, the name, country and code of the row, the two doubles read
    from [lat] and [lng], and the integer read from [population]. *)
Theorem build_records `{U : UnicodeData} `{F : FloatParser}
    (hot_limit all_limit : nat) (rows : list (gmap string value))
    (hot_cities all_cities : list (gmap string value)) (c : gmap string value) :
  generate_city_datasets.build hot_limit all_limit rows
    = Ok (hot_cities, all_cities) ->
  c ∈ hot_cities \/ c ∈ all_cities ->
  exists row lat lng p,
    row ∈ rows /\ parsed row "lat" lat /\ parsed row "lng" lng
    /\ generate_city_datasets.parse_population row = Ok p
    /\ city_of_row row lat lng p c.
Proof.
  intros H Hc. apply build_inv in H as (cities & sorted & Hcities & Hsorted & -> & ->).
  apply sort_by_key_spec in Hsorted as [Hperm _].
  apply for_each_read_row in Hcities as (new & -> & _ & Hnew).
  assert (c ∈ new) as Hin.
  { rewrite <- Hperm. destruct Hc as [Hc|Hc]; by eapply subseteq_take. }
  by apply (proj1 (Forall_forall _ _) Hnew).
Qed.

Lemma build_records_witness :
  exists row lat lng p,
    row ∈ Sample.rows
    /\ parsed (F := AsciiFloat.ascii_float) row "lat" lat
    /\ parsed (F := AsciiFloat.ascii_float) row "lng" lng
    /\ generate_city_datasets.parse_population (F := AsciiFloat.ascii_float) row
       = Ok p
    /\ city_of_row row lat lng p
         (Sample.city "Bonn" Sample.f50_5 Sample.f7 330000).
Proof.
  apply (build_records (U := LatinExcerpt.latin_ucd) (F := AsciiFloat.ascii_float)
           2 3 Sample.rows
           [Sample.city "Aachen" Sample.f50_5 Sample.f7 250000;
            Sample.city "Bonn" Sample.f50_5 Sample.f7 330000]
           ([Sample.city "Aachen" Sample.f50_5 Sample.f7 250000;
             Sample.city "Bonn" Sample.f50_5 Sample.f7 330000]
            ++ [Sample.city "Köln" Sample.f50_5 Sample.f7 1000000])).
  - vm_compute. reflexivity.
  - left. apply list_elem_of_In. right. by left.
Defined.

(** The lengths of the two lists: with [n] the number of rows that pass the
    coordinate filter, which is at most the number of rows, the hot list has
    [min hot_limit n] records and the all list [min all_limit n]. *)
Theorem build_lengths `{U : UnicodeData} `{F : FloatParser}
    (hot_limit all_limit : nat) (rows : list (gmap string value))
    (hot_cities all_cities : list (gmap string value)) :
  generate_city_datasets.build hot_limit all_limit rows
    = Ok (hot_cities, all_cities) ->
  exists cities,
    for_each generate_city_datasets.read_row rows [] = Ok cities
    /\ (length cities <= length rows)%nat
    /\ length hot_cities = Nat.min hot_limit (length cities)
    /\ length all_cities = Nat.min all_limit (length cities).
Proof.
  intros H. apply build_inv in H as (cities & sorted & Hcities & Hsorted & -> & ->).
  apply sort_by_key_spec in Hsorted as [Hperm _].
  exists cities. split; [done|].
  apply for_each_read_row in Hcities as (new & -> & Hlen & _).
  rewrite !length_take, Hperm. by split_and!.
Qed.

Lemma build_lengths_witness :
  exists cities,
    for_each (generate_city_datasets.read_row (F := AsciiFloat.ascii_float))
      Sample.rows [] = Ok cities
    /\ (length cities <= length Sample.rows)%nat
    /\ length [Sample.city "Aachen" Sample.f50_5 Sample.f7 250000;
               Sample.city "Bonn" Sample.f50_5 Sample.f7 330000]
       = Nat.min 2 (length cities)
    /\ length ([Sample.city "Aachen" Sample.f50_5 Sample.f7 250000;
                Sample.city "Bonn" Sample.f50_5 Sample.f7 330000]
               ++ [Sample.city "Köln" Sample.f50_5 Sample.f7 1000000])
       = Nat.min 7 (length cities).
Proof.
  apply (build_lengths (U := LatinExcerpt.latin_ucd) (F := AsciiFloat.ascii_float)
           2 7 Sample.rows).
  vm_compute. reflexivity.
Defined.

(** The sort is stable: the records of one and the same sort key stand in
    the sorted list, of which the two lists are prefixes, in the order of
    their rows. *)
Theorem build_stable `{U : UnicodeData} `{F : FloatParser}
    (hot_limit all_limit : nat) (rows : list (gmap string value))
    (hot_cities all_cities : list (gmap string value)) :
  generate_city_datasets.build hot_limit all_limit rows
    = Ok (hot_cities, all_cities) ->
  exists cities sorted,
    for_each generate_city_datasets.read_row rows [] = Ok cities
    /\ hot_cities = take hot_limit sorted
    /\ all_cities = take all_limit sorted
    /\ forall k,
        filter (fun c => generate_city_datasets.sort_key c = Ok k) sorted =
        filter (fun c => generate_city_datasets.sort_key c = Ok k) cities.
Proof.
  intros H. apply build_inv in H as (cities & sorted & Hcities & Hsorted & -> & ->).
  exists cities, sorted. split_and!; try done.
  intros k. by apply sort_by_key_stable.
Qed.

Lemma build_stable_witness :
  let rows := [Sample.row "Köln" "50.5" "7" "2"; Sample.row "Koln" "50.5" "7" "1";
               Sample.row "Bonn" "50.5" "7" "3"] in
  let bonn := Sample.city "Bonn" Sample.f50_5 Sample.f7 3 in
  let koeln := Sample.city "Köln" Sample.f50_5 Sample.f7 2 in
  let koln := Sample.city "Koln" Sample.f50_5 Sample.f7 1 in
  generate_city_datasets.build (U := LatinExcerpt.latin_ucd)
    (F := AsciiFloat.ascii_float) 2 3 rows = Ok ([bonn; koeln], [bonn; koeln; koln])
  /\ exists cities sorted,
    for_each (generate_city_datasets.read_row (F := AsciiFloat.ascii_float))
      rows [] = Ok cities
    /\ [bonn; koeln] = take 2 sorted
    /\ [bonn; koeln; koln] = take 3 sorted
    /\ forall k,
        filter (fun c => generate_city_datasets.sort_key
                           (U := LatinExcerpt.latin_ucd) c = Ok k) sorted =
        filter (fun c => generate_city_datasets.sort_key
                           (U := LatinExcerpt.latin_ucd) c = Ok k) cities.
Proof.
  intros rows bonn koeln koln.
  assert (generate_city_datasets.build (U := LatinExcerpt.latin_ucd)
    (F := AsciiFloat.ascii_float) 2 3 rows = Ok ([bonn; koeln], [bonn; koeln; koln]))
    as Hrun by (vm_compute; reflexivity).
  split; [exact Hrun|].
  exact (build_stable 2 3 rows _ _ Hrun).
Defined.

(** ** The builder: the exceptions it does not catch *)

(** Three rows end the loop by an exception: a population that [float]
    reads as an infinity (OverflowError of [int]); a [lat] that is [None], as
    in a row with too few columns (TypeError of [float]); a row whose
    coordinates are read but which has no [city], [country] or [iso2] column
    (KeyError). *)
Theorem read_row_raises `{F : FloatParser}
    (cities : list (gmap string value)) (row : gmap string value) :
  (forall v s, row !! "population" = Some v -> truthy v = true ->
     py_float v = Ok (S754_infinity s) ->
     generate_city_datasets.read_row cities row = Raise OverflowError)
  /\ (forall p, generate_city_datasets.parse_population row = Ok p ->
      row !! "lat" = Some PNone ->
      generate_city_datasets.read_row cities row = Raise TypeError)
  /\ (forall p lat lng, generate_city_datasets.parse_population row = Ok p ->
      generate_city_datasets.parse_coordinates row = Ok (lat, lng) ->
      row !! "city" = None \/ row !! "country" = None \/ row !! "iso2" = None ->
      generate_city_datasets.read_row cities row = Raise KeyError).
Proof.
  split_and!.
  - intros v s Hv Ht Hf. unfold generate_city_datasets.read_row.
    rewrite (parse_population_present _ _ Hv), Ht, Hf. done.
  - intros p Hp Hlat. unfold generate_city_datasets.read_row.
    rewrite Hp. cbn [mbind result_bind].
    unfold generate_city_datasets.parse_coordinates, getitem. by rewrite Hlat.
  - intros p lat lng Hp Hc Hmissing. unfold generate_city_datasets.read_row.
    rewrite Hp, Hc. cbn [mbind result_bind]. unfold getitem.
    destruct (row !! "city"); [|done]. cbn [mbind result_bind].
    destruct (row !! "country"); [|done]. cbn [mbind result_bind].
    destruct (row !! "iso2"); [|done].
    by destruct Hmissing as [?|[?|?]].
Qed.

Lemma read_row_raises_witness :
  generate_city_datasets.read_row (F := AsciiFloat.ascii_float) []
    (Sample.row "Bonn" "50.5" "7" "1e999") = Raise OverflowError
  /\ generate_city_datasets.read_row (F := AsciiFloat.ascii_float) []
       (<["lat" := PNone]> (Sample.row "Bonn" "50.5" "7" "3")) = Raise TypeError
  /\ generate_city_datasets.read_row (F := AsciiFloat.ascii_float) []
       (delete "city" (Sample.row "Bonn" "50.5" "7" "3")) = Raise KeyError.
Proof.
  split_and!.
  - apply (proj1 (read_row_raises [] (Sample.row "Bonn" "50.5" "7" "1e999"))
             (PStr (lit "1e999")) false); vm_compute; reflexivity.
  - apply (proj1 (proj2 (read_row_raises []
             (<["lat" := PNone]> (Sample.row "Bonn" "50.5" "7" "3")))) 3%Z);
      vm_compute; reflexivity.
  - apply (proj2 (proj2 (read_row_raises []
             (delete "city" (Sample.row "Bonn" "50.5" "7" "3"))))
             3%Z Sample.f50_5 Sample.f7); [vm_compute; reflexivity ..|].
    left. vm_compute. reflexivity.
Defined.

(** An exception of one row is the outcome of the whole run: when the rows
    before it are read and the row raises, [build] raises the same exception
    and returns no list, whatever the rows behind it. *)
Theorem build_propagates `{U : UnicodeData} `{F : FloatParser}
    (hot_limit all_limit : nat) (before after : list (gmap string value))
    (row : gmap string value) (cities : list (gmap string value)) (e : exn) :
  for_each generate_city_datasets.read_row before [] = Ok cities ->
  generate_city_datasets.read_row cities row = Raise e ->
  generate_city_datasets.build hot_limit all_limit (before ++ row :: after)
    = Raise e.
Proof.
  intros Hbefore Hrow. unfold generate_city_datasets.build.
  rewrite for_each_app, Hbefore. cbn [mbind result_bind for_each].
  by rewrite Hrow.
Qed.

Lemma build_propagates_witness :
  generate_city_datasets.build (U := LatinExcerpt.latin_ucd)
    (F := AsciiFloat.ascii_float) 2 3
    ([Sample.row "Aachen" "50.5" "7" "1"]
     ++ Sample.row "Bonn" "50.5" "7" "inf" :: [Sample.row "Köln" "50.5" "7" "2"])
  = Raise OverflowError.
Proof.
  apply (build_propagates 2 3 [Sample.row "Aachen" "50.5" "7" "1"]
           [Sample.row "Köln" "50.5" "7" "2"] (Sample.row "Bonn" "50.5" "7" "inf")
           [Sample.city "Aachen" Sample.f50_5 Sample.f7 1]);
    vm_compute; reflexivity.
Defined.


(** ** The validator: more on the list of errors *)

Lemma str_le_trans (a b c : str) :
  str_le a b = true -> str_le b c = true -> str_le a c = true.
Proof.
  unfold str_le. rewrite !negb_true_iff. intros Hba Hcb.
  destruct (str_lt c a) eqn:Hca; [|done].
  destruct (str_lt a b) eqn:Hab.
  - by rewrite (str_lt_trans _ _ _ Hca Hab) in Hcb.
  - rewrite (str_lt_total _ _ Hab Hba) in Hca. congruence.
Qed.

Section ValidatorMore.
Import validate_city_sorting.
Context `{U : UnicodeData}.

Lemma check_city_errors (st st' : check_state) (i : nat) (c : gmap string value) :
  check_city st i c = Ok st' ->
  errors st' = errors st
  \/ exists e, errors st' = errors st ++ [e] /\ error_index e = i.
Proof.
  unfold check_city. destruct (c !! "name") as [n|].
  - intros H. apply bind_Ok in H as (k & _ & H).
    apply bind_Ok in H as (errors' & Herr & [= <-]). cbn.
    destruct (prev_normalized st) as [prev|]; [|injection Herr as <-; by left].
    destruct (str_lt k prev); [|injection Herr as <-; by left].
    apply bind_Ok in Herr as (pn & _ & [= <-]). right. by eexists.
  - intros [= <-]. cbn. right. by eexists.
Qed.

Lemma for_enumerate_indices (i : nat) (l : list (gmap string value))
    (st st' : check_state) :
  for_enumerate check_city i l st = Ok st' ->
  exists new,
    errors st' = errors st ++ new
    /\ (length new <= length l)%nat
    /\ StronglySorted lt (error_index <$> new)
    /\ Forall (fun e => i <= error_index e < i + length l)%nat new.
Proof.
  revert i st. induction l as [|c l IH]; intros i st; cbn [for_enumerate].
  - intros [= <-]. exists []. rewrite app_nil_r. split_and!; try done. constructor.
  - intros H. apply bind_Ok in H as (st1 & Hstep & Hrest).
    apply IH in Hrest as (new & Hnew & Hlen & Hsorted & Hbound).
    assert (Forall (fun e => i <= error_index e < i + length (c :: l))%nat new)
      as Hbound'.
    { eapply Forall_impl; [exact Hbound|]. intros e. simpl. lia. }
    apply check_city_errors in Hstep as [Hsame|(e & Hone & He)].
    + exists new. rewrite Hnew, Hsame. split_and!; try done. simpl. lia.
    + exists (e :: new). rewrite Hnew, Hone, <- app_assoc.
      split_and!; try done.
      * simpl. lia.
      * rewrite fmap_cons. constructor; [done|].
        rewrite Forall_fmap. eapply Forall_impl; [exact Hbound|].
        intros e' He'. unfold compose. cbn beta in He'. lia.
      * constructor; [simpl; lia|done].
Qed.



(** Whether a result is valid, when there is one. *)
Lemma validate_sorting_valid_iff (cities : list (gmap string value)) (ok : bool)
    (msg : option error_message) (sts : option stats) :
  validate_sorting (CitiesArray cities) = Ok (ok, msg, sts) ->
  ok = true <-> in_order cities.
Proof.
  intros Hr. unfold in_order. destruct (decide (cities = [])) as [->|Hne].
  { injection Hr as <- _ _. split; [done|]. by intros (? & _). }
  destruct (validate_sorting_inv _ _ Hne Hr) as (st & Hrun & Hcases).
  pose proof (no_defect_iff _ _ Hrun) as Hiff.
  destruct Hcases as [[Hes [= -> _ _]]|[Hes (? & ? & ? & ? & _ & _ & _ & _ & [= -> _ _])]].
  - split; [done|]. intros (_ & H). destruct Hes. by apply Hiff.
  - split; [|done]. intros _. split; [done|]. by apply Hiff.
Qed.

End ValidatorMore.


(** The entries of the error list stand in the order of the records, at
    most one for a record: their indices increase strictly and are indices
    of the dataset, so the list is never longer than the dataset. *)
Theorem errors_in_index_order `{U : UnicodeData}
    (cities : list (gmap string value)) (ok : bool)
    (es : list validate_city_sorting.error)
    (sts : option validate_city_sorting.stats) :
  validate_city_sorting.validate_sorting
    (validate_city_sorting.CitiesArray cities)
    = Ok (ok, Some (validate_city_sorting.Errors es), sts) ->
  StronglySorted lt (error_index <$> es)
  /\ Forall (fun e => error_index e < length cities)%nat es
  /\ (length es <= length cities)%nat.
Proof.
  intros Hr. destruct (decide (cities = [])) as [->|Hne]; [done|].
  destruct (validate_sorting_inv _ _ Hne Hr) as (st & Hrun & Hcases).
  destruct Hcases as [[_ [= _ Hes _]]|[_ (? & ? & ? & ? & _ & _ & _ & _ & [=])]].
  apply for_enumerate_indices in Hrun as (new & Hnew & Hlen & Hsorted & Hbound).
  cbn in Hnew. assert (es = new) as -> by congruence. split_and!; try done.
  eapply Forall_impl; [exact Hbound|]. intros e. cbn beta. lia.
Qed.

Lemma errors_in_index_order_witness :
  let es := [validate_city_sorting.MissingName 1;
             validate_city_sorting.SortingViolation 2
               (PStr (lit "b")) (lit "b") (PStr (lit "a")) (lit "a")] in
  let cities := [Sample.named "b"; ∅; Sample.named "a"] in
  StronglySorted lt (error_index <$> es)
  /\ Forall (fun e => error_index e < length cities)%nat es
  /\ (length es <= length cities)%nat.
Proof.
  intros es cities.
  apply (errors_in_index_order (U := LatinExcerpt.latin_ucd) cities false es None).
  vm_compute. reflexivity.
Defined.

Lemma sorted_by_key_global {A : Type} (key : A -> result str) (l : list A)
    (i j : nat) (a b : A) :
  sorted_by_key key l -> (i < j)%nat -> l !! i = Some a -> l !! j = Some b ->
  exists ka kb, key a = Ok ka /\ key b = Ok kb /\ str_le ka kb = true.
Proof.
  intros Hl Hij Ha. revert b. induction Hij as [|j Hij IH]; intros b Hb.
  - by apply (Hl i).
  - destruct (lookup_lt_is_Some_2 l j) as [c Hc].
    { apply lookup_lt_Some in Hb. lia. }
    destruct (IH c Hc) as (ka & kc & Hka & Hkc & Hac).
    destruct (Hl j c b Hc Hb) as (kc' & kb & Hkc' & Hkb & Hcb).
    assert (kc' = kc) as -> by congruence.
    exists ka, kb. split_and!; try done. by eapply str_le_trans.
Qed.

(** A dataset that the validator declares valid is ordered as a whole, as a
    binary search needs it: the key of a record is never greater than the
    key of any record behind it. *)
Theorem valid_globally_ordered `{U : UnicodeData}
    (cities : list (gmap string value))
    (msg : option validate_city_sorting.error_message)
    (sts : option validate_city_sorting.stats) (i j : nat)
    (a b : gmap string value) :
  validate_city_sorting.validate_sorting
    (validate_city_sorting.CitiesArray cities) = Ok (true, msg, sts) ->
  (i < j)%nat -> cities !! i = Some a -> cities !! j = Some b ->
  exists ka kb, city_key a = Ok ka /\ city_key b = Ok kb /\ str_le ka kb = true.
Proof.
  intros Hr Hij Ha Hb.
  destruct (proj1 (validate_sorting_valid_iff _ _ _ _ Hr) eq_refl)
    as (_ & _ & Hsorted).
  by eapply sorted_by_key_global.
Qed.

Lemma valid_globally_ordered_witness :
  exists ka kb,
    city_key (U := LatinExcerpt.latin_ucd) (Sample.named "Aachen") = Ok ka
    /\ city_key (U := LatinExcerpt.latin_ucd) (Sample.named "Köln") = Ok kb
    /\ str_le ka kb = true.
Proof.
  apply (valid_globally_ordered (U := LatinExcerpt.latin_ucd)
           [Sample.named "Aachen"; Sample.named "Bonn"; Sample.named "Köln"]
           None
           (Some {| validate_city_sorting.total := 3;
                    validate_city_sorting.first := PStr (lit "Aachen");
                    validate_city_sorting.last := PStr (lit "Köln") |})
           0%nat 2%nat);
    [vm_compute; reflexivity | lia | reflexivity | reflexivity].
Defined.



(** ** The validator on what the builder returns *)

Section EndToEnd.
Context `{U : UnicodeData} `{F : FloatParser}.






End EndToEnd.



(** The exit status of the validator, when it returns: it is 0 or 1, and it
    is 0 exactly when both files hold a dataset that is in order: not empty,
    every record named, keys never decreasing. *)
Theorem validator_exit_status `{U : UnicodeData}
    (hot_cities all_cities : validate_city_sorting.json_file) (status : Z) :
  validate_city_sorting.main hot_cities all_cities = Ok status ->
  (status = 0%Z \/ status = 1%Z)
  /\ (status = 0%Z <-> file_in_order hot_cities /\ file_in_order all_cities).
Proof.
  assert (forall file ok msg sts,
    validate_city_sorting.validate_sorting file = Ok (ok, msg, sts) ->
    ok = true <-> file_in_order file) as Hfile.
  { intros [| |cities] ok msg sts Hr.
    - injection Hr as <- _ _. done.
    - injection Hr as <- _ _. done.
    - by eapply validate_sorting_valid_iff. }
  unfold validate_city_sorting.main. intros H.
  apply bind_Ok in H as ([[ok1 msg1] sts1] & Hhot & H).
  apply bind_Ok in H as ([[ok2 msg2] sts2] & Hall & H).
  apply Hfile in Hhot, Hall.
  destruct ok1, ok2; injection H as <-; split; try (by left); try (by right);
    split; try done.
  - intros _. split; [by apply Hhot | by apply Hall].
  - intros [_ H2]. by apply Hall in H2.
  - intros [H1 _]. by apply Hhot in H1.
  - intros [H1 _]. by apply Hhot in H1.
Qed.

Lemma validator_exit_status_witness :
  let hot := validate_city_sorting.CitiesArray
               [Sample.named "Aachen"; Sample.named "Köln"] in
  let all := validate_city_sorting.CitiesArray
               [Sample.named "Köln"; Sample.named "Aachen"] in
  (1%Z = 0%Z \/ 1%Z = 1%Z)
  /\ (1%Z = 0%Z <-> file_in_order (U := LatinExcerpt.latin_ucd) hot
                    /\ file_in_order (U := LatinExcerpt.latin_ucd) all).
Proof.
  intros hot all.
  apply (validator_exit_status (U := LatinExcerpt.latin_ucd) hot all 1).
  vm_compute. reflexivity.
Defined.


